(** * Persons API (backend/main.py): a shallow embedding and its properties

    The service is five FastAPI handlers over one SQLAlchemy table.  A
    handler is embedded as a function from the session it is given to an
    outcome and the session it leaves; a session holds the table as
    committed and the work that is not committed yet, and [get_db] closes
    it when the handler is left, which drops that work.

    What the source only calls (the schema validator's lenient conversions,
    the database driver's treatment of a Python value assigned to a column,
    the attributes a mapped class inherits from its declarative base) is
    collected in the class [Platform]: the handlers are defined, and the
    properties proved, for every platform that meets its laws.  The store
    is the one of the test setup: integers of 64 bits, a table scanned by
    primary key.

    The states of the model are tables whose rows hold, in every column, a
    value of the declared type of the column, and a string is the sequence
    of bytes of its encoding.  A store that keeps a value of another type
    in a column (text in [age]) leaves these states: the properties that
    say what a PATCH stores are stated for bodies whose values have the
    types of their columns. *)

From Stdlib Require Import ZArith List String Ascii Bool Lia.
From Stdlib Require Import Decimal DecimalString DecimalPos DecimalZ.
Import ListNotations.

#[local] Open Scope string_scope.
#[local] Open Scope list_scope.
#[local] Open Scope Z_scope.
#[local] Set Warnings "-register-all".

(** ** Python values *)

(** A Python float: not-a-number, an infinity, or the finite value
    [m * 2^e]. *)
Inductive pyfloat : Type :=
| FNan
| FInf (negative : bool)
| FFin (m e : Z).

(** The values a parsed JSON body is made of, which are also the values an
    attribute of a mapped object can hold after [setattr]. *)
Inductive pyval : Type :=
| PNone
| PBool (b : bool)
| PInt (z : Z)
| PFloat (f : pyfloat)
| PStr (s : string)
| PList (l : list pyval)
| PDict (d : list (string * pyval)).

(** A [dict] in insertion order.  Python keeps one entry per key: see
    [dict_wf]. *)
Definition dict : Type := list (string * pyval).

Definition keys (d : dict) : list string := map fst d.

Definition dict_wf (d : dict) : Prop := NoDup (keys d).

Fixpoint dict_get (d : dict) (k : string) : option pyval :=
  match d with
  | [] => None
  | (k', v) :: d' => if String.eqb k' k then Some v else dict_get d' k
  end.

(** [d[k] = v]: an existing key keeps its place. *)
Fixpoint dict_set (d : dict) (k : string) (v : pyval) : dict :=
  match d with
  | [] => [(k, v)]
  | (k', v') :: d' =>
      if String.eqb k' k then (k', v) :: d' else (k', v') :: dict_set d' k v
  end.

Definition float_truthy (f : pyfloat) : bool :=
  match f with
  | FFin m _ => negb (m =? 0)
  | _ => true
  end.

(** [bool(v)], the test behind [not v]. *)
Definition truthy (v : pyval) : bool :=
  match v with
  | PNone => false
  | PBool b => b
  | PInt z => negb (z =? 0)
  | PFloat f => float_truthy f
  | PStr s => negb (String.eqb s "")
  | PList l => match l with [] => false | _ => true end
  | PDict d => match d with [] => false | _ => true end
  end.

Definition bool_int (b : bool) : Z := if b then 1 else 0.

(** [f == z] for a float and an integer: exact comparison. *)
Definition float_eq_int (f : pyfloat) (z : Z) : bool :=
  match f with
  | FFin m e => if 0 <=? e then m * 2 ^ e =? z else m =? z * 2 ^ (- e)
  | _ => false
  end.

(** [v == z] and [v == s] for an integer and a string. *)
Definition py_eq_int (v : pyval) (z : Z) : bool :=
  match v with
  | PInt x => x =? z
  | PBool b => bool_int b =? z
  | PFloat f => float_eq_int f z
  | _ => false
  end.

Definition py_eq_str (v : pyval) (s : string) : bool :=
  match v with
  | PStr x => String.eqb x s
  | _ => false
  end.

(** A value [json.dumps] renders in a response: no NaN and no infinity
    anywhere in it. *)
Fixpoint finite (v : pyval) : bool :=
  match v with
  | PFloat (FFin _ _) => true
  | PFloat _ => false
  | PList l => forallb finite l
  | PDict d => forallb (fun kv => finite (snd kv)) d
  | _ => true
  end.

(** The integers of the store and of its driver: 64 bits, signed. *)
Definition Integer_min : Z := -9223372036854775808.

Definition Integer_max : Z := 9223372036854775807.

Definition storable (z : Z) : bool := (Integer_min <=? z) && (z <=? Integer_max).

(** [str(z)] of an integer, as an f-string renders it. *)
Definition str (z : Z) : string := NilZero.string_of_int (Z.to_int z).

(** [s.split("/")] and its last element. *)
Fixpoint split (s : string) : list string :=
  match s with
  | EmptyString => [""]
  | String c s' =>
      if Ascii.eqb c "/" then "" :: split s'
      else match split s' with
           | seg :: segs => String c seg :: segs
           | [] => [String c ""]
           end
  end.


(** ** Responses and exceptions *)

Record response : Type := mkResponse {
  status_code : Z;
  headers : list (string * string);
  content : pyval
}.

(** A validation diagnostic: the path of the offending field, the kind of
    error, and the input that was refused. *)
Record diagnostic : Type := mkDiagnostic {
  loc : list string;
  kind : string;
  input : pyval
}.

Inductive exception : Type :=
| HTTPException (code : Z) (detail : string)
| RequestValidationError (errors : list diagnostic)
| AttributeError (name : string)
| OverflowError
| DBAPIError
| InvalidRequestError
| TypeError.

(** What a handler does: it returns a response or raises. *)
Inductive outcome : Type :=
| Return (r : response)
| Raise (e : exception).

Definition JSONResponse (c : pyval) (code : Z) : response :=
  mkResponse code [] c.

(** [ErrorResponse(message=msg).model_dump()] *)
Definition ErrorResponse (msg : string) : pyval := PDict [("message", PStr msg)].

Definition error_response (msg : string) (code : Z) : response :=
  JSONResponse (ErrorResponse msg) code.

(** A diagnostic in the body of a 422: its path, its kind and the input
    echoed; its message is left out. *)
Definition diagnostic_json (e : diagnostic) : pyval :=
  PDict [("loc", PList (map PStr (loc e))); ("type", PStr (kind e));
         ("input", input e)].

Definition server_error : response :=
  mkResponse 500 [] (PStr "Internal Server Error").

(** The framework's exception handlers: [HTTPException] and the request
    validation error have a JSON rendering, anything else is the server
    error of the transport; so is a validation error whose echoed input
    cannot be rendered, the handler raising in its turn. *)
Definition render (o : outcome) : response :=
  match o with
  | Return r => r
  | Raise (HTTPException code detail) =>
      JSONResponse (PDict [("detail", PStr detail)]) code
  | Raise (RequestValidationError errs) =>
      if forallb (fun e => finite (input e)) errs
      then JSONResponse (PDict [("detail", PList (map diagnostic_json errs))]) 422
      else server_error
  | Raise _ => server_error
  end.

(** ** The table and the mapped class *)

(** A row of [persons]: [PersonDB] with every column of its declared type
    and not null. *)
Record PersonDB : Type := mkPersonDB {
  id : Z;
  name : string;
  age : Z;
  address : string;
  work : string
}.

(** The rows of the table, in the order they were written.  A query
    without ORDER BY scans the table by primary key: see [query_all]. *)
Definition database : Type := list PersonDB.

Inductive column : Type := c_id | c_name | c_age | c_address | c_work.

Definition column_of (field : string) : option column :=
  if String.eqb field "id" then Some c_id
  else if String.eqb field "name" then Some c_name
  else if String.eqb field "age" then Some c_age
  else if String.eqb field "address" then Some c_address
  else if String.eqb field "work" then Some c_work
  else None.

Definition column_name (c : column) : string :=
  match c with
  | c_id => "id" | c_name => "name" | c_age => "age"
  | c_address => "address" | c_work => "work"
  end.

(** The value of a column of a row, as Python sees it. *)
Definition column_value (r : PersonDB) (c : column) : pyval :=
  match c with
  | c_id => PInt (id r)
  | c_name => PStr (name r)
  | c_age => PInt (age r)
  | c_address => PStr (address r)
  | c_work => PStr (work r)
  end.

(** A [PersonDB] object in a session: the current value of each mapped
    attribute, whatever was assigned to it, and the instance attributes
    that are not columns. *)
Record instance : Type := mkInstance {
  a_id : pyval;
  a_name : pyval;
  a_age : pyval;
  a_address : pyval;
  a_work : pyval;
  a_dict : dict
}.

Definition load (r : PersonDB) : instance :=
  mkInstance (PInt (id r)) (PStr (name r)) (PInt (age r))
             (PStr (address r)) (PStr (work r)) [].

Definition get_column (o : instance) (c : column) : pyval :=
  match c with
  | c_id => a_id o | c_name => a_name o | c_age => a_age o
  | c_address => a_address o | c_work => a_work o
  end.

Definition set_column (o : instance) (c : column) (v : pyval) : instance :=
  match c with
  | c_id => mkInstance v (a_name o) (a_age o) (a_address o) (a_work o) (a_dict o)
  | c_name => mkInstance (a_id o) v (a_age o) (a_address o) (a_work o) (a_dict o)
  | c_age => mkInstance (a_id o) (a_name o) v (a_address o) (a_work o) (a_dict o)
  | c_address => mkInstance (a_id o) (a_name o) (a_age o) v (a_work o) (a_dict o)
  | c_work => mkInstance (a_id o) (a_name o) (a_age o) (a_address o) v (a_dict o)
  end.

(** ** The platform *)

Class Platform : Type := {
  (** the validator's lenient conversion of a string and of a float to an
      [int] field: the integer, or the kind of error *)
  str_as_int : string -> string + Z;
  float_as_int : pyfloat -> string + Z;
  (** the driver and the store on a value assigned to an [Integer] and to
      a [String] column: the value stored, or nothing when the statement
      fails *)
  bind_Integer : pyval -> option Z;
  bind_String : pyval -> option string;
  (** the attribute an object of [PersonDB] has under a name that the
      class body does not declare: inherited from [Base] and [object]
      ([metadata], [__class__], [__dict__], ...) or put on the instance by
      the mapper, as a value with the same truth value; and the object
      after an assignment to it, which may touch the mapped state, or
      nothing when the assignment raises *)
  Base_getattr : string -> option pyval;
  Base_setattr : string -> pyval -> instance -> option instance;
  (** the id the store picks at random for a new row once the largest
      integer is in use, or nothing when it finds none *)
  random_rowid : list Z -> option Z;
  (** laws *)
  str_as_int_str : forall z, storable z = true -> str_as_int (str z) = inr z;
  bind_Integer_int :
    forall z, bind_Integer (PInt z) = if storable z then Some z else None;
  bind_String_str : forall s, bind_String (PStr s) = Some s;
  bind_Integer_None : bind_Integer PNone = None;
  bind_String_None : bind_String PNone = None;
  bind_Integer_storable : forall v z, bind_Integer v = Some z -> storable z = true;
  random_rowid_fresh :
    forall ids i, random_rowid ids = Some i -> storable i = true /\ ~ In i ids
}.

Section Service.

Context {platform : Platform}.

(** ** Attribute access on a mapped object *)

(** [getattr(db_person, field)]: a column, an attribute set on the
    instance, [__tablename__] of the class body, an inherited attribute, or
    [AttributeError]. *)
Definition getattr (o : instance) (field : string) : exception + pyval :=
  match column_of field with
  | Some c => inr (get_column o c)
  | None =>
      match dict_get (a_dict o) field with
      | Some v => inr v
      | None =>
          if String.eqb field "__tablename__" then inr (PStr "persons")
          else match Base_getattr field with
               | Some v => inr v
               | None => inl (AttributeError field)
               end
      end
  end.

Definition set_instance_attr (o : instance) (field : string) (v : pyval) : instance :=
  mkInstance (a_id o) (a_name o) (a_age o) (a_address o) (a_work o)
             (dict_set (a_dict o) field v).

(** [setattr(db_person, field, value)], for a [field] that [getattr] found. *)
Definition setattr (o : instance) (field : string) (v : pyval) : exception + instance :=
  match column_of field with
  | Some c => inr (set_column o c v)
  | None =>
      match dict_get (a_dict o) field with
      | Some _ => inr (set_instance_attr o field v)
      | None =>
          if String.eqb field "__tablename__" then inr (set_instance_attr o field v)
          else match Base_setattr field v o with
               | Some o' => inr o'
               | None => inl TypeError
               end
      end
  end.

(** ** The store *)

(** The row under a primary key, if any. *)
Definition select_first (person_id : Z) (db : database) : option PersonDB :=
  find (fun r => id r =? person_id) db.

(** [db.query(PersonDB).filter(PersonDB.id == id).first()]: the id is
    bound as a parameter of the SELECT, which the driver refuses for an
    integer it cannot represent. *)
Definition query_first (person_id : Z) (db : database)
  : exception + option PersonDB :=
  if storable person_id then inr (select_first person_id db)
  else inl OverflowError.

Fixpoint insert_by_id (r : PersonDB) (rows : list PersonDB) : list PersonDB :=
  match rows with
  | [] => [r]
  | x :: rows' => if id r <=? id x then r :: rows else x :: insert_by_id r rows'
  end.

(** [db.query(PersonDB).all()]: the rows by ascending primary key. *)
Definition query_all (db : database) : list PersonDB :=
  fold_right insert_by_id [] db.

Definition max_id (r : PersonDB) (rs : list PersonDB) : Z :=
  fold_right (fun x m => Z.max (id x) m) (id r) rs.

(** The id the store gives a row inserted without one: 1 in an empty
    table, else one more than the largest in use, and an unused one picked
    at random once the largest integer is in use. *)
Definition next_id (db : database) : option Z :=
  match db with
  | [] => Some 1
  | r :: rs =>
      if max_id r rs <? Integer_max then Some (max_id r rs + 1)
      else random_rowid (map id db)
  end.

(** A column in the UPDATE of a flush: an attribute that compares equal to
    the loaded value is left out, another one is bound by the driver. *)
Definition flush_Integer (loaded : Z) (v : pyval) : option Z :=
  if py_eq_int v loaded then Some loaded else bind_Integer v.

Definition flush_String (loaded : string) (v : pyval) : option string :=
  if py_eq_str v loaded then Some loaded else bind_String v.

Definition flush (r : PersonDB) (o : instance) : option PersonDB :=
  match flush_Integer (id r) (a_id o), flush_String (name r) (a_name o),
        flush_Integer (age r) (a_age o), flush_String (address r) (a_address o),
        flush_String (work r) (a_work o) with
  | Some i, Some n, Some a, Some ad, Some w => Some (mkPersonDB i n a ad w)
  | _, _, _, _, _ => None
  end.

Definition PersonDB_eqb (r r' : PersonDB) : bool :=
  (id r =? id r') && String.eqb (name r) (name r') && (age r =? age r')
  && String.eqb (address r) (address r') && String.eqb (work r) (work r').

(** The flush of [o], loaded as [r]: nothing to write when no column
    changed; otherwise one UPDATE of the row whose primary key is [id r],
    which fails when a value is refused or the new primary key is taken.
    The result is the row as the store now has it, and the table; the row
    keeps its place in the list of rows, which no query reads as such:
    [select_first] finds a row by its key and [query_all] sorts by key. *)
Definition commit_update (r : PersonDB) (o : instance) (db : database)
  : exception + PersonDB * database :=
  match flush r o with
  | None => inl DBAPIError
  | Some r' =>
      if PersonDB_eqb r' r then inr (r', db)
      else if negb (id r' =? id r) && existsb (fun x => id x =? id r') db
      then inl DBAPIError
      else inr (r', map (fun x => if id x =? id r then r' else x) db)
  end.

(** The primary key of an INSERT: assigned by the store for an object
    without one, else the object's own, which must be free. *)
Definition insert_key (v : pyval) (db : database) : option Z :=
  match v with
  | PNone => next_id db
  | _ => match bind_Integer v with
         | Some i => if existsb (fun x => id x =? i) db then None else Some i
         | None => None
         end
  end.

(** The flush of a new object [o]: one INSERT. *)
Definition commit_insert (o : instance) (db : database)
  : exception + PersonDB * database :=
  match insert_key (a_id o) db, bind_String (a_name o), bind_Integer (a_age o),
        bind_String (a_address o), bind_String (a_work o) with
  | Some i, Some n, Some a, Some ad, Some w =>
      let r := mkPersonDB i n a ad w in inr (r, db ++ [r])
  | _, _, _, _, _ => inl DBAPIError
  end.

(** [DELETE FROM persons WHERE persons.id = :id] *)
Definition commit_delete (r : PersonDB) (db : database) : database :=
  filter (fun x => negb (id x =? id r)) db.

(** ** The session *)

(** What a session holds besides its connection: nothing, an object given
    to [db.add], an object it loaded (the row as loaded and the object,
    with whatever was assigned to it since), or an object given to
    [db.delete]. *)
Inductive unit_of_work : Type :=
| Clean
| Added (o : instance)
| Loaded (row : PersonDB) (o : instance)
| Deleted (row : PersonDB).

(** A session: the table as committed, and the work not yet committed. *)
Record Session : Type := mkSession {
  table : database;
  pending : unit_of_work
}.

Definition SessionLocal (db : database) : Session := mkSession db Clean.

(** [db.close()]: what was not committed is gone. *)
Definition close (db : Session) : database := table db.

(** [db.add(o)], [db.delete(o)] and an assignment to the attributes of
    the loaded object, which the session sees. *)
Definition add (o : instance) (db : Session) : Session :=
  mkSession (table db) (Added o).

Definition delete (row : PersonDB) (db : Session) : Session :=
  mkSession (table db) (Deleted row).

Definition assigned (row : PersonDB) (o : instance) (db : Session) : Session :=
  mkSession (table db) (Loaded row o).

(** [db.commit()]: the work is flushed to the table; the object written
    stays in the session as loaded. *)
Definition commit (db : Session) : exception + Session :=
  match pending db with
  | Clean => inr db
  | Added o =>
      match commit_insert o (table db) with
      | inl e => inl e
      | inr (r, t) => inr (mkSession t (Loaded r (load r)))
      end
  | Loaded row o =>
      match commit_update row o (table db) with
      | inl e => inl e
      | inr (r, t) => inr (mkSession t (Loaded r (load r)))
      end
  | Deleted row => inr (mkSession (commit_delete row (table db)) Clean)
  end.

(** [db.refresh(obj)] for the object of the session: its row is read
    again, under the key the store has it under. *)
Definition refresh (db : Session) : exception + PersonDB * Session :=
  match pending db with
  | Loaded row _ =>
      match select_first (id row) (table db) with
      | Some r => inr (r, mkSession (table db) (Loaded r (load r)))
      | None => inl InvalidRequestError
      end
  | _ => inl InvalidRequestError
  end.

(** The dependency [get_db]: a session for the request, closed when the
    handler is left, by return or by exception. *)
Definition get_db (handler : Session -> outcome * Session) (db : database)
  : outcome * database :=
  let (o, session) := handler (SessionLocal db) in (o, close session).

(** ** Request validation *)

(** The Pydantic models: [PersonCreate] is [PersonBase], [PersonResponse]
    adds [id]. *)
Record PersonCreate : Type := mkPersonCreate {
  pc_name : string;
  pc_age : Z;
  pc_address : string;
  pc_work : string
}.

(** A field annotated [str]: present and a string. *)
Definition validate_str (v : option pyval) : string + string :=
  match v with
  | None => inl "missing"
  | Some (PStr s) => inr s
  | Some _ => inl "string_type"
  end.

(** A field annotated [int], in the validator's default lenient mode: an
    integer, or a boolean, a string or a float that converts to one. *)
Definition validate_int (v : option pyval) : string + Z :=
  match v with
  | None => inl "missing"
  | Some (PInt z) => inr z
  | Some (PBool b) => inr (bool_int b)
  | Some (PStr s) => str_as_int s
  | Some (PFloat f) => float_as_int f
  | Some _ => inl "int_type"
  end.

(** The diagnostic of a field: the input echoed is the value of the
    field, and the whole body for a field that is missing. *)
Definition field_error {A : Type} (d : dict) (field : string) (r : string + A)
  : list diagnostic :=
  match r with
  | inl k =>
      [mkDiagnostic ["body"; field] k
                    (match dict_get d field with Some v => v | None => PDict d end)]
  | inr _ => []
  end.

(** The body of POST against [PersonCreate]: every field is validated and
    every failure reported; keys that are not fields are ignored.  A body
    that is absent or null is a missing body. *)
Definition validate_PersonCreate (body : pyval) : list diagnostic + PersonCreate :=
  match body with
  | PDict d =>
      let n := validate_str (dict_get d "name") in
      let a := validate_int (dict_get d "age") in
      let ad := validate_str (dict_get d "address") in
      let w := validate_str (dict_get d "work") in
      match n, a, ad, w with
      | inr n', inr a', inr ad', inr w' => inr (mkPersonCreate n' a' ad' w')
      | _, _, _, _ =>
          inl (field_error d "name" n ++ field_error d "age" a
               ++ field_error d "address" ad ++ field_error d "work" w)
      end
  | PNone => inl [mkDiagnostic ["body"] "missing" PNone]
  | _ => inl [mkDiagnostic ["body"] "model_attributes_type" body]
  end.

(** The body of PATCH against [dict]. *)
Definition validate_dict (body : pyval) : list diagnostic + dict :=
  match body with
  | PDict d => inr d
  | PNone => inl [mkDiagnostic ["body"] "missing" PNone]
  | _ => inl [mkDiagnostic ["body"] "dict_type" body]
  end.

(** A record through [response_model=PersonResponse]. *)
Definition PersonResponse (r : PersonDB) : pyval :=
  PDict [("name", PStr (name r)); ("age", PInt (age r));
         ("address", PStr (address r)); ("work", PStr (work r));
         ("id", PInt (id r))].

(** ** The handlers *)

Definition get_person_by_id (person_id : Z) (db : Session)
  : exception + PersonDB * Session :=
  match query_first person_id (table db) with
  | inl e => inl e
  | inr None => inl (HTTPException 404 "Not found")
  | inr (Some person) => inr (person, assigned person (load person) db)
  end.

Definition read_person (person_id : Z) (db : Session) : outcome * Session :=
  match get_person_by_id person_id db with
  | inl e => (Raise e, db)
  | inr (person, db1) => (Return (JSONResponse (PersonResponse person) 200), db1)
  end.

Definition read_persons (db : Session) : outcome * Session :=
  (Return (JSONResponse (PList (map PersonResponse (query_all (table db)))) 200), db).

(** [PersonDB] of the fields of [person.model_dump()]: an object without id. *)
Definition PersonDB_of (person : PersonCreate) : instance :=
  mkInstance PNone (PStr (pc_name person)) (PInt (pc_age person))
             (PStr (pc_address person)) (PStr (pc_work person)) [].

Definition create_person (person : PersonCreate) (db : Session) : outcome * Session :=
  let db_person := PersonDB_of person in
  let db1 := add db_person db in
  match commit db1 with
  | inl e => (Raise e, db1)
  | inr db2 =>
      match refresh db2 with
      | inl e => (Raise e, db2)
      | inr (row, db3) =>
          (Return (mkResponse 201
                     [("Location", ("/persons/" ++ str (id row))%string)] PNone),
           db3)
      end
  end.

(** How the loop of [update_person] is left, and the object then. *)
Inductive loop_exit : Type :=
| Exhausted (o : instance)
| Returned (r : response) (o : instance)
| Raised (e : exception) (o : instance).

(** The [for field, value in person.items()] of [update_person]. *)
Fixpoint update_loop (db_person : instance) (items : dict) : loop_exit :=
  match items with
  | [] => Exhausted db_person
  | (field, value) :: rest =>
      match getattr db_person field with
      | inl e => Raised e db_person
      | inr current =>
          if negb (truthy current)
          then Returned (error_response "Invalid data" 400) db_person
          else match setattr db_person field value with
               | inl e => Raised e db_person
               | inr db_person' => update_loop db_person' rest
               end
      end
  end.

Definition update_person (person_id : Z) (person : dict) (db : Session)
  : outcome * Session :=
  match get_person_by_id person_id db with
  | inl e => (Raise e, db)
  | inr (row, db1) =>
      match update_loop (load row) person with
      | Returned r o => (Return r, assigned row o db1)
      | Raised e o => (Raise e, assigned row o db1)
      | Exhausted o =>
          let db2 := assigned row o db1 in
          match commit db2 with
          | inl e => (Raise e, db2)
          | inr db3 =>
              match refresh db3 with
              | inl e => (Raise e, db3)
              | inr (row', db4) =>
                  (Return (JSONResponse (PersonResponse row') 200), db4)
              end
          end
      end
  end.

Definition delete_person (person_id : Z) (db : Session) : outcome * Session :=
  match get_person_by_id person_id db with
  | inl e => (Raise e, db)
  | inr (person, db1) =>
      let db2 := delete person db1 in
      match commit db2 with
      | inl e => (Raise e, db2)
      | inr db3 => (Return (mkResponse 204 [] PNone), db3)
      end
  end.

(** ** The application *)

(** A request after routing, with its path parameter converted and its
    JSON body parsed. *)
Inductive request : Type :=
| GET_person (person_id : Z)
| GET_persons
| POST_persons (body : pyval)
| PATCH_person (person_id : Z) (body : pyval)
| DELETE_person (person_id : Z).

(** A handler whose body parameter is validated before it is entered. *)
Definition validated {A : Type} (body : list diagnostic + A)
           (handler : A -> Session -> outcome * Session)
  : Session -> outcome * Session :=
  match body with
  | inl errs => fun db => (Raise (RequestValidationError errs), db)
  | inr a => handler a
  end.

(** The path operation behind a request: the session of [Depends(get_db)]
    is opened, the body is validated, the handler is entered, the session
    is closed. *)
Definition dispatch (req : request) (db : database) : outcome * database :=
  match req with
  | GET_person person_id => get_db (read_person person_id) db
  | GET_persons => get_db read_persons db
  | POST_persons body =>
      get_db (validated (validate_PersonCreate body) create_person) db
  | PATCH_person person_id body =>
      get_db (validated (validate_dict body) (update_person person_id)) db
  | DELETE_person person_id => get_db (delete_person person_id) db
  end.

(** The application on one request: the response the client sees and the
    table afterwards. *)
Definition app (req : request) (db : database) : response * database :=
  let (o, db') := dispatch req db in (render o, db').

(** The table after a run of requests. *)
Definition run (reqs : list request) (db : database) : database :=
  fold_left (fun d req => snd (app req d)) reqs db.


End Service.

(** ** A platform to run the handlers on *)

(** Signed decimal numerals convert to [int], floats with an integral
    value too; a column takes values of its own Python type only, and
    [bool] as the [int] it is. *)
Definition decimal_as_int (s : string) : string + Z :=
  match NilZero.int_of_string s with
  | Some d => inr (Z.of_int d)
  | None => inl "int_parsing"
  end.

Definition integral_as_int (f : pyfloat) : string + Z :=
  match f with
  | FFin m e =>
      if 0 <=? e then inr (m * 2 ^ e)
      else if m mod 2 ^ (- e) =? 0 then inr (m / 2 ^ (- e))
      else inl "int_from_float"
  | _ => inl "finite_number"
  end.

Definition exact_Integer (v : pyval) : option Z :=
  match v with
  | PInt z => if storable z then Some z else None
  | PBool b => Some (bool_int b)
  | _ => None
  end.

Definition exact_String (v : pyval) : option string :=
  match v with
  | PStr s => Some s
  | _ => None
  end.

Definition declarative_attr (field : string) : option pyval :=
  if (String.eqb field "metadata" || String.eqb field "registry"
      || String.eqb field "__dict__" || String.eqb field "__class__"
      || String.eqb field "_sa_instance_state")%bool
  then Some (PBool true)
  else if String.eqb field "__doc__" then Some PNone
  else None.

Definition reference_platform : Platform.
Proof.
  refine {| str_as_int := decimal_as_int;
            float_as_int := integral_as_int;
            bind_Integer := exact_Integer;
            bind_String := exact_String;
            Base_getattr := declarative_attr;
            Base_setattr := fun field v o => Some (set_instance_attr o field v);
            random_rowid := fun _ => None |}; try reflexivity; try discriminate.
  - intros z _. unfold decimal_as_int, str.
    rewrite NilZero.isi.
    + now rewrite DecimalZ.of_to.
    + destruct z as [|p|p]; simpl; try discriminate.
      intro H. injection H as H. now apply (Unsigned.to_uint_nonnil p).
    + destruct z as [|p|p]; simpl; try discriminate.
      intro H. injection H as H. now apply (Unsigned.to_uint_nonnil p).
  - intros v z. destruct v as [|b|x|f|s|l|d]; simpl; try discriminate.
    + destruct b; intro H; injection H as <-; reflexivity.
    + destruct (storable x) eqn:Hx; [|discriminate].
      intro H. injection H as <-. exact Hx.
Defined.

(** The data of the test suite, and the row its first POST stores. *)
Definition TEST_PERSON_DATA : dict :=
  [("name", PStr "John Doe"); ("age", PInt 30);
   ("address", PStr "123"); ("work", PStr "123")].

Definition TEST_PERSON_UPDATE_DATA : dict :=
  [("name", PStr "Jane Smith"); ("age", PInt 25);
   ("address", PStr "456"); ("work", PStr "456")].

Definition john : PersonDB := mkPersonDB 1 "John Doe" 30 "123" "123".


Definition jane2 : PersonDB := mkPersonDB 2 "Jane Smith" 25 "456" "456".

(** ** Vocabulary of the properties *)

(** Some field named in the body has a falsy stored value on the record. *)
Definition names_falsy (r : PersonDB) (person : dict) : bool :=
  existsb (fun kv => match column_of (fst kv) with
                     | Some c => negb (truthy (column_value r c))
                     | None => false
                     end) person.

(** Every key of the body is one of the five attributes of a person. *)
Definition over_attributes (person : dict) : Prop :=
  Forall (fun k => column_of k <> None) (keys person).

(** A value of the Python type of a column. *)
Definition fits (c : column) (v : pyval) : bool :=
  match c, v with
  | (c_id | c_age), PInt _ => true
  | (c_name | c_address | c_work), PStr _ => true
  | _, _ => false
  end.

Definition well_typed (person : dict) : Prop :=
  forall k v c, In (k, v) person -> column_of k = Some c -> fits c v = true.



(** One of the four fields [name], [age], [address], [work]. *)
Definition is_field (k : string) : bool :=
  match column_of k with
  | Some c_id | None => false
  | Some _ => true
  end.

(** Every key of the body is one of the four fields. *)
Definition over_fields (person : dict) : bool :=
  forallb (fun kv => is_field (fst kv)) person.



(** The object after every assignment of a body over the attributes. *)
Definition assign (o : instance) (person : dict) : instance :=
  fold_left (fun o' kv => match column_of (fst kv) with
                          | Some c => set_column o' c (snd kv)
                          | None => o'
                          end) person o.


(** All four fields of a stored record are truthy. *)
Definition person_truthy (r : PersonDB) : bool :=
  truthy (PStr (name r)) && truthy (PInt (age r))
  && truthy (PStr (address r)) && truthy (PStr (work r)).

(** The four fields of an object in a session hold truthy values of the
    types of their columns. *)
Definition instance_truthy (o : instance) : Prop :=
  forall c, c <> c_id -> fits c (get_column o c) && truthy (get_column o c) = true.

Definition PersonCreate_row (i : Z) (p : PersonCreate) : PersonDB :=
  mkPersonDB i (pc_name p) (pc_age p) (pc_address p) (pc_work p).



(** A field that [str] validation refuses: missing, or not a string. *)
Definition not_str (v : option pyval) : Prop := forall s, v <> Some (PStr s).

(** The primary key is unique in the table. *)
Definition unique_ids (db : database) : Prop := NoDup (map id db).


(** A request within the schema: a PATCH whose body is over the person's
    attributes, with one entry per key and values of the types of their
    columns; any other request. *)
Definition within_schema (req : request) : Prop :=
  match req with
  | PATCH_person _ (PDict d) => dict_wf d /\ over_attributes d /\ well_typed d
  | _ => True
  end.

(** A request that cannot give a record another id: a PATCH whose body
    is over the four fields; any other request. *)
Definition keeps_ids (req : request) : bool :=
  match req with
  | PATCH_person _ (PDict d) => over_fields d
  | _ => true
  end.

(** The [Location] header of a response, if it has one. *)
Definition location (r : response) : option string :=
  match headers r with
  | (k, l) :: _ => if String.eqb k "Location" then Some l else None
  | [] => None
  end.

(** Every id and every age of the table is an integer of the store. *)
Definition in_range (db : database) : Prop :=
  forall r, In r db -> storable (id r) = true /\ storable (age r) = true.

(** The record [r] stored under another id. *)
Definition with_id (i : Z) (r : PersonDB) : PersonDB :=
  mkPersonDB i (name r) (age r) (address r) (work r).

Section Vocabulary.

Context {platform : Platform}.

(** A field that [int] validation refuses: missing, null, an array or an
    object, or a string or a float that the validator does not convert. *)
Definition not_int (v : option pyval) : Prop :=
  match v with
  | None | Some PNone | Some (PList _) | Some (PDict _) => True
  | Some (PStr s) => exists k, str_as_int s = inl k
  | Some (PFloat f) => exists k, float_as_int f = inl k
  | Some (PInt _) | Some (PBool _) => False
  end.

(** A body that is no JSON object, or in which one of the four fields is
    refused. *)
Definition fails_PersonCreate (body : pyval) : Prop :=
  match body with
  | PDict d =>
      not_str (dict_get d "name") \/ not_int (dict_get d "age")
      \/ not_str (dict_get d "address") \/ not_str (dict_get d "work")
  | _ => True
  end.


(** The request is answered with the location of a record under [i]. *)
Definition creates (i : Z) (req : request) (db : database) : bool :=
  match location (fst (app req db)) with
  | Some l => String.eqb l ("/persons/" ++ str i)
  | None => false
  end.

(** Along the run, no request is answered with the location of a record
    under [i], and none can give a record another id. *)
Fixpoint never_created (i : Z) (reqs : list request) (db : database) : bool :=
  match reqs with
  | [] => true
  | req :: reqs' =>
      keeps_ids req && negb (creates i req db)
      && never_created i reqs' (snd (app req db))
  end.

(** An item that brings a truthy value: for one of the four fields a
    value of the type of its column that is truthy; any value for [id];
    any value under a key that is no column, provided the object inherits
    no attribute under that key (the loop then raises at the key, or sets
    the plain attribute [__tablename__]). *)
Definition truthy_item (kv : string * pyval) : bool :=
  match column_of (fst kv) with
  | Some c_id => true
  | Some c => fits c (snd kv) && truthy (snd kv)
  | None => match Base_getattr (fst kv) with
            | None => true
            | Some _ => false
            end
  end.

(** A request that brings only truthy values for the four fields: a POST
    whose validated payload is truthy throughout (or that fails
    validation), a PATCH whose items are. *)
Definition supplies_truthy (req : request) : bool :=
  match req with
  | POST_persons body =>
      match validate_PersonCreate body with
      | inr p => person_truthy (PersonCreate_row 0 p)
      | inl _ => true
      end
  | PATCH_person _ (PDict person) => forallb truthy_item person
  | _ => true
  end.

End Vocabulary.

(** * Properties *)

Section Properties.

Context {platform : Platform}.

(** ** Lookups *)

Lemma select_first_some (i : Z) (db : database) (r : PersonDB) :
  select_first i db = Some r -> In r db /\ id r = i.
Proof.
  unfold select_first. intro H. apply find_some in H.
  destruct H as [Hin Heq]. split; [assumption | lia].
Qed.

Lemma select_first_own (i : Z) (db : database) (r : PersonDB) :
  select_first i db = Some r -> select_first (id r) db = Some r.
Proof.
  intro H. destruct (select_first_some _ _ _ H) as [_ <-]. exact H.
Qed.

Lemma select_first_none (i : Z) (db : database) :
  select_first i db = None <-> forall r, In r db -> id r <> i.
Proof.
  unfold select_first. split.
  - intros H r Hin Heq. apply (find_none _ _ H) in Hin. lia.
  - intro H. induction db as [|x db IH]; simpl; [reflexivity|].
    destruct (Z.eqb_spec (id x) i) as [E|E].
    + exfalso. apply (H x); [now left | exact E].
    + apply IH. intros r Hr. apply H. now right.
Qed.

Lemma query_first_found (i : Z) (db : database) (r : PersonDB) :
  query_first i db = inr (Some r) -> storable i = true /\ select_first i db = Some r.
Proof.
  unfold query_first. destruct (storable i); [|discriminate].
  intro H. injection H as H. now split.
Qed.

Lemma query_first_storable (i : Z) (db : database) :
  storable i = true -> query_first i db = inr (select_first i db).
Proof. unfold query_first. now intros ->. Qed.

Lemma query_first_overflow (i : Z) (db : database) :
  storable i = false -> query_first i db = inl OverflowError.
Proof. unfold query_first. now intros ->. Qed.

Lemma PersonDB_eqb_eq (r r' : PersonDB) : PersonDB_eqb r r' = true -> r = r'.
Proof.
  unfold PersonDB_eqb. intro H.
  repeat (apply andb_prop in H; destruct H as [H ?]).
  destruct r, r'; simpl in *.
  repeat match goal with
         | E : (_ =? _) = true |- _ => apply Z.eqb_eq in E
         | E : String.eqb _ _ = true |- _ => apply String.eqb_eq in E
         end.
  congruence.
Qed.

Lemma dict_get_In (d : dict) (k : string) (v : pyval) :
  dict_get d k = Some v -> In (k, v) d.
Proof.
  induction d as [|[k' v'] d IH]; simpl; [discriminate|].
  destruct (String.eqb_spec k' k) as [->|_].
  - intros [= ->]. now left.
  - intro H. right. now apply IH.
Qed.

Lemma dict_get_fresh (d : dict) (k : string) :
  ~ In k (keys d) -> dict_get d k = None.
Proof.
  induction d as [|[k' v'] d IH]; simpl; [reflexivity|].
  intro H. destruct (String.eqb_spec k' k) as [->|_].
  - exfalso. apply H. now left.
  - apply IH. intro Hin. apply H. now right.
Qed.

(** ** Columns *)

Lemma column_of_name (k : string) (c : column) :
  column_of k = Some c -> k = column_name c.
Proof.
  unfold column_of.
  repeat match goal with
         | |- context [String.eqb k ?s] => destruct (String.eqb_spec k s) as [->|?]
         end; intros [= <-]; reflexivity.
Qed.

Lemma column_name_of (c : column) : column_of (column_name c) = Some c.
Proof. destruct c; reflexivity. Qed.

Lemma get_set_column_same (o : instance) (c : column) (v : pyval) :
  get_column (set_column o c v) c = v.
Proof. destruct c; reflexivity. Qed.

Lemma get_set_column_other (o : instance) (c c' : column) (v : pyval) :
  c <> c' -> get_column (set_column o c v) c' = get_column o c'.
Proof. destruct c, c'; simpl; congruence. Qed.

Lemma a_dict_set_column (o : instance) (c : column) (v : pyval) :
  a_dict (set_column o c v) = a_dict o.
Proof. destruct c; reflexivity. Qed.

Lemma get_column_load (r : PersonDB) (c : column) :
  get_column (load r) c = column_value r c.
Proof. destruct c; reflexivity. Qed.

(** ** The loop of [update_person] on a body over the attributes *)

Lemma update_loop_attributes (r : PersonDB) (person : dict) :
  forall o : instance,
    over_attributes person ->
    dict_wf person ->
    (forall k c, In k (keys person) -> column_of k = Some c ->
                 get_column o c = column_value r c) ->
    match update_loop o person with
    | Returned answer o' =>
        names_falsy r person = true
        /\ answer = error_response "Invalid data" 400
        /\ exists before k v after c,
            person = before ++ (k, v) :: after
            /\ names_falsy r before = false
            /\ column_of k = Some c /\ truthy (column_value r c) = false
            /\ o' = assign o before
    | Exhausted o' => names_falsy r person = false /\ o' = assign o person
    | Raised _ _ => False
    end.
Proof.
  induction person as [|[k v] rest IH]; intros o Hattr Hwf Hcur.
  - now split.
  - inversion Hattr as [|? ? Hk Hrest]; subst.
    inversion Hwf as [|? ? Hnotin Hwf']; subst.
    destruct (column_of k) as [c|] eqn:Hc; [|congruence].
    cbn [update_loop names_falsy existsb fst assign fold_left snd].
    unfold getattr, setattr. rewrite Hc.
    rewrite (Hcur k c (or_introl eq_refl) Hc).
    destruct (truthy (column_value r c)) eqn:Ht; cbn [negb orb].
    + assert (Hcur' : forall k' c', In k' (keys rest) -> column_of k' = Some c' ->
                        get_column (set_column o c v) c' = column_value r c').
      { intros k' c' Hin' Hc'. rewrite get_set_column_other.
        - apply (Hcur k' c'); [now right | assumption].
        - intros ->. apply column_of_name in Hc, Hc'. subst k'.
          apply Hnotin. rewrite Hc. exact Hin'. }
      specialize (IH (set_column o c v) Hrest Hwf' Hcur').
      destruct (update_loop (set_column o c v) rest) as [o'|answer o'|e o'];
        [exact IH | | exact IH].
      destruct IH as [Hf [Ha [before [k1 [v1 [after [c1 [-> [Hb [Hc1 [Ht1 ->]]]]]]]]]]].
      split; [exact Hf|]. split; [exact Ha|].
      exists ((k, v) :: before), k1, v1, after, c1.
      repeat split; try assumption.
      * cbn [names_falsy existsb fst]. rewrite Hc, Ht. exact Hb.
      * cbn [assign fold_left fst snd]. now rewrite Hc.
    + split; [reflexivity|]. split; [reflexivity|].
      exists [], k, v, rest, c. now repeat split.
Qed.

Lemma get_column_assign (person : dict) (c : column) :
  forall o : instance,
    over_attributes person ->
    dict_wf person ->
    get_column (assign o person) c =
      match dict_get person (column_name c) with
      | Some v => v
      | None => get_column o c
      end.
Proof.
  induction person as [|[k v] rest IH]; intros o Hattr Hwf.
  - reflexivity.
  - inversion Hattr as [|? ? Hk Hrest]; subst.
    inversion Hwf as [|? ? Hnotin Hwf']; subst.
    destruct (column_of k) as [ck|] eqn:Hc; [|congruence].
    cbn [assign fold_left fst snd dict_get]. rewrite Hc.
    fold (assign (set_column o ck v) rest).
    rewrite IH by assumption.
    destruct (String.eqb_spec k (column_name c)) as [->|Hne].
    + rewrite (dict_get_fresh rest) by exact Hnotin.
      rewrite column_name_of in Hc. injection Hc as <-.
      apply get_set_column_same.
    + destruct (dict_get rest (column_name c)); [reflexivity|].
      apply get_set_column_other. intros ->.
      apply column_of_name in Hc. congruence.
Qed.

(** ** Flushing and committing *)

Lemma flush_Integer_same (loaded : Z) : flush_Integer loaded (PInt loaded) = Some loaded.
Proof. unfold flush_Integer. simpl. now rewrite Z.eqb_refl. Qed.

Lemma flush_Integer_int (loaded z : Z) :
  storable z = true -> flush_Integer loaded (PInt z) = Some z.
Proof.
  intro Hz. unfold flush_Integer. simpl. destruct (Z.eqb_spec z loaded) as [->|_].
  - reflexivity.
  - now rewrite bind_Integer_int, Hz.
Qed.

Lemma flush_String_str (loaded s : string) : flush_String loaded (PStr s) = Some s.
Proof.
  unfold flush_String. simpl. destruct (String.eqb_spec s loaded) as [->|_].
  - reflexivity.
  - apply bind_String_str.
Qed.

Lemma flush_load (r : PersonDB) : flush r (load r) = Some r.
Proof.
  unfold flush, load. simpl.
  rewrite !flush_Integer_same, !flush_String_str. now destruct r.
Qed.


(** In the table after the UPDATE, the row is found under its new key. *)
Lemma select_first_updated (r r' : PersonDB) (db : database) :
  In r db ->
  (id r' = id r \/ select_first (id r') db = None) ->
  select_first (id r') (map (fun x => if id x =? id r then r' else x) db) = Some r'.
Proof.
  intros Hin Hfree. unfold select_first.
  induction db as [|x db IH]; [contradiction|].
  simpl. destruct (Z.eqb_spec (id x) (id r)) as [Ex|Ex].
  - now rewrite Z.eqb_refl.
  - destruct (Z.eqb_spec (id x) (id r')) as [Ex'|Ex'].
    + exfalso. destruct Hfree as [E|Hnone]; [congruence|].
      apply select_first_none with (r := x) in Hnone; [congruence | now left].
    + destruct Hin as [->|Hin]; [congruence|].
      apply IH; [assumption|].
      destruct Hfree as [E|Hnone]; [now left | right].
      apply select_first_none. intros y Hy.
      apply (proj1 (select_first_none _ _) Hnone). now right.
Qed.

(** A commit that goes through leaves the row it wrote in the table, and
    [refresh] reads it back. *)
Lemma commit_update_stored (i : Z) (r r' : PersonDB) (o : instance)
      (db db' : database) :
  select_first i db = Some r ->
  commit_update r o db = inr (r', db') ->
  flush r o = Some r' /\ select_first (id r') db' = Some r'.
Proof.
  intros Hq. unfold commit_update.
  destruct (flush r o) as [r1|]; [|discriminate].
  destruct (PersonDB_eqb r1 r) eqn:Heq.
  - intros [= <- <-]. apply PersonDB_eqb_eq in Heq. subst r1.
    split; [reflexivity|]. exact (select_first_own _ _ _ Hq).
  - destruct (negb (id r1 =? id r) && existsb (fun x => id x =? id r1) db)
      eqn:Hclash; [discriminate|].
    intros [= <- <-]. split; [reflexivity|].
    apply select_first_updated.
    + apply (select_first_some _ _ _ Hq).
    + apply andb_false_iff in Hclash. destruct Hclash as [E|E].
      * left. apply negb_false_iff in E. lia.
      * right. apply select_first_none. intros y Hy Ey.
        assert (existsb (fun x => id x =? id r1) db = true) as Hex.
        { apply existsb_exists. exists y. split; [assumption | lia]. }
        congruence.
Qed.

Lemma commit_update_error (r : PersonDB) (o : instance) (db : database) (e : exception) :
  commit_update r o db = inl e -> e = DBAPIError.
Proof.
  unfold commit_update. destruct (flush r o) as [r1|]; [|congruence].
  destruct (PersonDB_eqb r1 r); [discriminate|].
  destruct (negb (id r1 =? id r) && existsb (fun x => id x =? id r1) db);
    [congruence | discriminate].
Qed.

Lemma PersonDB_eqb_refl (r : PersonDB) : PersonDB_eqb r r = true.
Proof.
  unfold PersonDB_eqb. now rewrite !Z.eqb_refl, !String.eqb_refl.
Qed.

(** ** PATCH on a body over the attributes *)

(** The handler in its session, once the loop is resolved. *)
Lemma update_person_attributes (person_id : Z) (person : dict) (db : database)
      (row : PersonDB) :
  query_first person_id db = inr (Some row) ->
  dict_wf person -> over_attributes person ->
  if names_falsy row person
  then exists o,
      update_person person_id person (SessionLocal db)
      = (Return (error_response "Invalid data" 400), mkSession db (Loaded row o))
  else get_db (update_person person_id person) db =
       match commit_update row (assign (load row) person) db with
       | inl e => (Raise e, db)
       | inr (row', db') => (Return (JSONResponse (PersonResponse row') 200), db')
       end.
Proof.
  intros Hq0 Hwf Hattr.
  destruct (query_first_found _ _ _ Hq0) as [_ Hq].
  pose proof (update_loop_attributes row person (load row) Hattr Hwf
                (fun k c _ _ => get_column_load row c)) as Hloop.
  unfold get_db, update_person, get_person_by_id, SessionLocal.
  cbn [table]. rewrite Hq0.
  destruct (update_loop (load row) person) as [o|answer o|e o];
    [destruct Hloop as [-> ->] | destruct Hloop as [-> [-> _]] | contradiction].
  - unfold commit, assigned. cbn [table pending].
    destruct (commit_update row (assign (load row) person) db)
      as [e|[row' db']] eqn:Hc; [reflexivity|].
    destruct (commit_update_stored _ _ _ _ _ _ Hq Hc) as [_ Hr].
    unfold refresh. cbn [table pending]. now rewrite Hr.
  - exists o. reflexivity.
Qed.

Lemma update_person_rejected (person_id : Z) (person : dict) (db : database)
      (row : PersonDB) :
  query_first person_id db = inr (Some row) ->
  dict_wf person -> over_attributes person ->
  names_falsy row person = true ->
  app (PATCH_person person_id (PDict person)) db
  = (error_response "Invalid data" 400, db).
Proof.
  intros Hq Hwf Hattr Hfalsy.
  pose proof (update_person_attributes _ _ _ _ Hq Hwf Hattr) as H.
  rewrite Hfalsy in H. destruct H as [o H].
  unfold app, dispatch; cbn [validated validate_dict]; unfold get_db. now rewrite H.
Qed.




(** C2 (amended): for a stored person and a PATCH body, over the person's
    attributes, that names a field whose stored value is falsy, the answer
    is 400 and the table is the one before the request, whatever was
    assigned to the object before the rejecting field was reached: the
    record read back is the record as it was. *)
Theorem update_person_rejected_unchanged (person_id : Z) (person : dict)
        (db : database) (row : PersonDB) :
  query_first person_id db = inr (Some row) ->
  dict_wf person -> over_attributes person ->
  names_falsy row person = true ->
  let answer := app (PATCH_person person_id (PDict person)) db in
  (exists before k v after,
      person = before ++ (k, v) :: after
      /\ update_person person_id person (SessionLocal db)
         = (Return (error_response "Invalid data" 400),
            mkSession db (Loaded row (assign (load row) before))))
  /\ status_code (fst answer) = 400
  /\ snd answer = db
  /\ app (GET_person person_id) (snd answer)
     = (JSONResponse (PersonResponse row) 200, db).
Proof.
  intros Hq0 Hwf Hattr Hfalsy answer.
  split.
  - pose proof (update_loop_attributes row person (load row) Hattr Hwf
                  (fun k c _ _ => get_column_load row c)) as Hloop.
    unfold update_person, get_person_by_id, SessionLocal. cbn [table]. rewrite Hq0.
    destruct (update_loop (load row) person) as [o|r o|e o].
    + destruct Hloop as [Hloop _]. congruence.
    + destruct Hloop as [_ [-> [before [k [v [after [c [-> [_ [_ [_ ->]]]]]]]]]]].
      now exists before, k, v, after.
    + contradiction.
  - assert (Ha : answer = (error_response "Invalid data" 400, db))
      by now apply (update_person_rejected _ _ _ row).
    rewrite Ha. simpl. repeat split.
    unfold app, dispatch, get_db, read_person, get_person_by_id, SessionLocal.
    cbn [table]. now rewrite Hq0.
Qed.

(** C9: for an existing person, PATCH with an empty JSON object answers
    200 with the record as it is and leaves the table as it is. *)
Theorem update_person_empty_body (person_id : Z) (db : database) (row : PersonDB) :
  query_first person_id db = inr (Some row) ->
  app (PATCH_person person_id (PDict [])) db
  = (JSONResponse (PersonResponse row) 200, db).
Proof.
  intro Hq0. destruct (query_first_found _ _ _ Hq0) as [_ Hq].
  unfold app, dispatch; cbn [validated validate_dict]; unfold get_db, update_person, get_person_by_id,
    SessionLocal.
  cbn [table]. rewrite Hq0. cbn [update_loop].
  unfold commit, assigned, commit_update. cbn [table pending].
  rewrite flush_load, PersonDB_eqb_refl. unfold refresh. cbn [table pending].
  now rewrite (select_first_own _ _ _ Hq).
Qed.

(** C3 (what the code does): PATCH with the body {"id": 2} on the only
    person, whose id is 1, is answered 200 and rewrites the primary key:
    afterwards the record is stored under 2 and nothing under 1. *)
Theorem update_person_rewrites_id :
  let john := mkPersonDB 1 "John Doe" 30 "123" "123" in
  let john2 := mkPersonDB 2 "John Doe" 30 "123" "123" in
  app (PATCH_person 1 (PDict [("id", PInt 2)])) [john]
  = (JSONResponse (PersonResponse john2) 200, [john2])
  /\ fst (app (GET_person 1) [john2])
     = JSONResponse (PDict [("detail", PStr "Not found")]) 404.
Proof.
  split; [|reflexivity].
  unfold app, dispatch; cbn [validated validate_dict]; unfold get_db, update_person. cbn.
  unfold commit, commit_update, flush. cbn.
  unfold flush_Integer, flush_String. cbn.
  rewrite bind_Integer_int. reflexivity.
Qed.

(** ** Keys that are no attributes *)

Lemma a_dict_assign (person : dict) :
  forall o : instance, a_dict (assign o person) = a_dict o.
Proof.
  induction person as [|[k v] rest IH]; intro o; [reflexivity|].
  cbn [assign fold_left fst snd]. destruct (column_of k) as [c|].
  - fold (assign (set_column o c v) rest). rewrite IH. apply a_dict_set_column.
  - apply IH.
Qed.

Lemma update_loop_app (r : PersonDB) (person rest : dict) :
  forall o : instance,
    over_attributes person ->
    dict_wf person ->
    (forall k c, In k (keys person) -> column_of k = Some c ->
                 get_column o c = column_value r c) ->
    names_falsy r person = false ->
    update_loop o (person ++ rest) = update_loop (assign o person) rest.
Proof.
  induction person as [|[k v] tl IH]; intros o Hattr Hwf Hcur Hfalsy.
  - reflexivity.
  - inversion Hattr as [|? ? Hk Htl]; subst.
    inversion Hwf as [|? ? Hnotin Hwf']; subst.
    destruct (column_of k) as [c|] eqn:Hc; [|congruence].
    cbn [names_falsy existsb fst] in Hfalsy. rewrite Hc in Hfalsy.
    apply orb_false_iff in Hfalsy. destruct Hfalsy as [Ht Hfalsy].
    apply negb_false_iff in Ht.
    cbn [List.app update_loop assign fold_left fst snd].
    unfold getattr, setattr. rewrite Hc.
    rewrite (Hcur k c (or_introl eq_refl) Hc), Ht. cbn [negb].
    apply IH; try assumption.
    intros k' c' Hin' Hc'.
    rewrite get_set_column_other.
    + apply (Hcur k' c'); [now right | assumption].
    + intros ->. apply column_of_name in Hc, Hc'. subst k'.
      apply Hnotin. rewrite Hc. exact Hin'.
Qed.

(** C10 (amended): for an existing person, a PATCH whose body reaches,
    after keys that are attributes with truthy stored values, a key under
    which the object has no attribute at all (no column, not
    [__tablename__], nothing inherited from the declarative base), raises
    [AttributeError] in the handler; the transport answers 500 and the
    table is untouched. *)
Theorem update_person_unknown_key (person_id : Z) (before after : dict)
        (k : string) (v : pyval) (db : database) (row : PersonDB) :
  query_first person_id db = inr (Some row) ->
  dict_wf before -> over_attributes before -> names_falsy row before = false ->
  column_of k = None -> k <> "__tablename__" -> Base_getattr k = None ->
  let person := before ++ (k, v) :: after in
  dispatch (PATCH_person person_id (PDict person)) db = (Raise (AttributeError k), db)
  /\ status_code (fst (app (PATCH_person person_id (PDict person)) db)) = 500.
Proof.
  intros Hq0 Hwf Hattr Hfalsy Hcol Htab Hbase person.
  assert (Hd : dispatch (PATCH_person person_id (PDict person)) db
               = (Raise (AttributeError k), db)).
  { subst person.
    unfold dispatch; cbn [validated validate_dict]; unfold get_db, update_person, get_person_by_id,
      SessionLocal.
    cbn [table]. rewrite Hq0.
    rewrite (update_loop_app row) by
      (try assumption; intros; apply get_column_load).
    cbn [update_loop]. unfold getattr.
    rewrite Hcol, a_dict_assign. cbn [load a_dict dict_get].
    apply String.eqb_neq in Htab. now rewrite Htab, Hbase. }
  split; [exact Hd|]. unfold app. now rewrite Hd.
Qed.

(** ** The handlers in their sessions *)

Lemma update_loop_returned (person : dict) :
  forall (o o' : instance) (r : response),
    update_loop o person = Returned r o' -> r = error_response "Invalid data" 400.
Proof.
  induction person as [|[k v] rest IH]; intros o o' r; cbn [update_loop].
  - discriminate.
  - destruct (getattr o k) as [e|cur]; [discriminate|].
    destruct (negb (truthy cur)); [now intros [= <- _]|].
    destruct (setattr o k v) as [e|o1]; [discriminate|]. apply IH.
Qed.

(** PATCH for any body: the lookup, the loop, the commit. *)
Lemma update_person_get_db (person_id : Z) (person : dict) (db : database) :
  get_db (update_person person_id person) db =
    match query_first person_id db with
    | inl e => (Raise e, db)
    | inr None => (Raise (HTTPException 404 "Not found"), db)
    | inr (Some row) =>
        match update_loop (load row) person with
        | Exhausted o =>
            match commit_update row o db with
            | inl e => (Raise e, db)
            | inr (row', db') => (Return (JSONResponse (PersonResponse row') 200), db')
            end
        | Returned r _ => (Return r, db)
        | Raised e _ => (Raise e, db)
        end
    end.
Proof.
  unfold get_db, update_person, get_person_by_id, SessionLocal.
  cbn [table].
  destruct (query_first person_id db) as [e|[row|]] eqn:Hq0; try reflexivity.
  destruct (query_first_found _ _ _ Hq0) as [_ Hq].
  destruct (update_loop (load row) person) as [o|r o|e o]; try reflexivity.
  unfold commit, assigned. cbn [table pending].
  destruct (commit_update row o db) as [e|[row' db']] eqn:Hc; [reflexivity|].
  destruct (commit_update_stored _ _ _ _ _ _ Hq Hc) as [_ Hr].
  unfold refresh. cbn [table pending]. now rewrite Hr.
Qed.

Lemma delete_person_get_db (person_id : Z) (db : database) :
  get_db (delete_person person_id) db =
    match query_first person_id db with
    | inl e => (Raise e, db)
    | inr (Some _) => (Return (mkResponse 204 [] PNone),
                       filter (fun x => negb (id x =? person_id)) db)
    | inr None => (Raise (HTTPException 404 "Not found"), db)
    end.
Proof.
  unfold get_db, delete_person, get_person_by_id, SessionLocal. cbn [table].
  destruct (query_first person_id db) as [e|[r|]] eqn:Hq0; try reflexivity.
  destruct (query_first_found _ _ _ Hq0) as [_ Hq].
  destruct (select_first_some _ _ _ Hq) as [_ <-]. reflexivity.
Qed.

Lemma read_person_get_db (person_id : Z) (db : database) :
  get_db (read_person person_id) db =
    match query_first person_id db with
    | inl e => (Raise e, db)
    | inr (Some r) => (Return (JSONResponse (PersonResponse r) 200), db)
    | inr None => (Raise (HTTPException 404 "Not found"), db)
    end.
Proof.
  unfold get_db, read_person, get_person_by_id, SessionLocal. cbn [table].
  now destruct (query_first person_id db) as [e|[r|]].
Qed.

(** ** Created ids *)

Lemma max_id_above (rs : list PersonDB) (r0 : PersonDB) :
  id r0 <= max_id r0 rs /\ forall r, In r rs -> id r <= max_id r0 rs.
Proof.
  unfold max_id. induction rs as [|x rs [IHb IHr]]; simpl.
  - split; [lia | contradiction].
  - split; [lia|]. intros r [->|Hr]; [lia|]. specialize (IHr r Hr). lia.
Qed.

(** The id the store assigns is in no row. *)
Lemma next_id_fresh (db : database) (i : Z) (r : PersonDB) :
  next_id db = Some i -> In r db -> id r <> i.
Proof.
  destruct db as [|r0 rs]; [contradiction|]. unfold next_id.
  destruct (max_id_above rs r0) as [Hb Hr].
  destruct (max_id r0 rs <? Integer_max).
  - intros [= <-] [<-|Hin]; [lia|]. specialize (Hr r Hin). lia.
  - intros Hrand Hin E. apply random_rowid_fresh in Hrand.
    destruct Hrand as [_ Hrand]. apply Hrand. rewrite <- E. now apply in_map.
Qed.

(** In a table of ids of the store, so is the id the store assigns. *)
Lemma next_id_storable (db : database) (i : Z) :
  in_range db -> next_id db = Some i -> storable i = true.
Proof.
  intro Hr. destruct db as [|r0 rs]; [now intros [= <-]|]. unfold next_id.
  destruct (max_id_above rs r0) as [Hb _].
  destruct (Z.ltb_spec (max_id r0 rs) Integer_max) as [Hlt|_].
  - intros [= <-]. destruct (Hr r0 (or_introl eq_refl)) as [H0 _].
    unfold storable in *. apply andb_true_iff in H0. destruct H0 as [H0 _].
    apply andb_true_iff. split; lia.
  - intro Hrand. now apply random_rowid_fresh in Hrand.
Qed.

Lemma select_first_app_fresh (i : Z) (db extra : database) :
  select_first i db = None -> select_first i (db ++ extra) = select_first i extra.
Proof.
  unfold select_first. induction db as [|y db IH]; intro H; simpl in *; [reflexivity|].
  destruct (id y =? i); [discriminate|]. now apply IH.
Qed.

Lemma select_first_snoc (db : database) (x : PersonDB) :
  (forall r, In r db -> id r <> id x) ->
  select_first (id x) (db ++ [x]) = Some x.
Proof.
  intro H. rewrite select_first_app_fresh by now apply select_first_none.
  unfold select_first. simpl. now rewrite Z.eqb_refl.
Qed.


Lemma commit_insert_PersonDB_of (p : PersonCreate) (db : database) :
  commit_insert (PersonDB_of p) db
  = if storable (pc_age p)
    then match next_id db with
         | Some i => inr (PersonCreate_row i p, db ++ [PersonCreate_row i p])
         | None => inl DBAPIError
         end
    else inl DBAPIError.
Proof.
  unfold commit_insert, PersonDB_of. cbn [a_id a_name a_age a_address a_work insert_key].
  rewrite !bind_String_str, bind_Integer_int.
  destruct (next_id db), (storable (pc_age p)); reflexivity.
Qed.

(** POST of a validated payload: stored under the id the store assigns,
    or refused by the store. *)
Lemma create_person_get_db (p : PersonCreate) (db : database) :
  get_db (create_person p) db
  = if storable (pc_age p)
    then match next_id db with
         | Some i =>
             (Return (mkResponse 201 [("Location", ("/persons/" ++ str i)%string)]
                                 PNone),
              db ++ [PersonCreate_row i p])
         | None => (Raise DBAPIError, db)
         end
    else (Raise DBAPIError, db).
Proof.
  unfold get_db, create_person, commit, add, SessionLocal. cbn [table pending].
  rewrite commit_insert_PersonDB_of.
  destruct (storable (pc_age p)); [|reflexivity].
  destruct (next_id db) as [i|] eqn:Hn; [|reflexivity].
  unfold refresh. cbn [table pending].
  rewrite (select_first_snoc db (PersonCreate_row i p))
    by (intros r Hr; now apply (next_id_fresh db)).
  reflexivity.
Qed.

(** ** The primary key *)

Lemma snd_app (req : request) (db : database) :
  snd (app req db) = snd (dispatch req db).
Proof. unfold app. now destruct (dispatch req db). Qed.

Lemma fst_app (req : request) (db : database) :
  fst (app req db) = render (fst (dispatch req db)).
Proof. unfold app. now destruct (dispatch req db). Qed.

Lemma map_id_filter (g : Z -> bool) (db : database) :
  map id (filter (fun x => g (id x)) db) = filter g (map id db).
Proof.
  induction db as [|x db IH]; [reflexivity|]. simpl.
  destruct (g (id x)); simpl; now rewrite IH.
Qed.

Lemma select_first_In_ids (i : Z) (db : database) :
  select_first i db = None <-> ~ In i (map id db).
Proof.
  rewrite select_first_none, in_map_iff. split.
  - intros H [x [E Hx]]. now apply (H x).
  - intros H r Hr E. apply H. now exists r.
Qed.

Lemma commit_update_table (r r' : PersonDB) (o : instance) (db db' : database) :
  commit_update r o db = inr (r', db') ->
  (r' = r /\ db' = db)
  \/ (db' = map (fun x => if id x =? id r then r' else x) db
      /\ (id r' = id r \/ select_first (id r') db = None)).
Proof.
  unfold commit_update. destruct (flush r o) as [r1|]; [|discriminate].
  destruct (PersonDB_eqb r1 r) eqn:Heq.
  - intros [= <- <-]. left. split; [now apply PersonDB_eqb_eq | reflexivity].
  - destruct (negb (id r1 =? id r) && existsb (fun x => id x =? id r1) db)
      eqn:Hclash; [discriminate|].
    intros [= <- <-]. right. split; [reflexivity|].
    apply andb_false_iff in Hclash. destruct Hclash as [E|E].
    + left. apply negb_false_iff in E. lia.
    + right. apply select_first_none. intros y Hy Ey.
      assert (existsb (fun x => id x =? id r1) db = true) as Hex.
      { apply existsb_exists. exists y. split; [assumption | lia]. }
      congruence.
Qed.

Lemma commit_update_flush (r r' : PersonDB) (o : instance) (db db' : database) :
  commit_update r o db = inr (r', db') -> flush r o = Some r'.
Proof.
  unfold commit_update. destruct (flush r o) as [r1|]; [|discriminate].
  destruct (PersonDB_eqb r1 r); [now intros [= <- _]|].
  destruct (negb (id r1 =? id r) && existsb (fun x => id x =? id r1) db);
    [discriminate | now intros [= <- _]].
Qed.

(** The ids of the table after an UPDATE that keeps the key. *)
Lemma map_id_updated (r r' : PersonDB) (db : database) :
  id r' = id r ->
  map id (map (fun x => if id x =? id r then r' else x) db) = map id db.
Proof.
  intro E. rewrite map_map. apply map_ext. intro x.
  destruct (Z.eqb_spec (id x) (id r)); congruence.
Qed.

(** A body over the four fields leaves the id of the object alone. *)
Lemma update_loop_fields (person : dict) :
  forall o : instance,
    over_fields person = true ->
    match update_loop o person with
    | Exhausted o' | Returned _ o' | Raised _ o' => a_id o' = a_id o
    end.
Proof.
  induction person as [|[k v] rest IH]; intros o Hf; [reflexivity|].
  cbn [over_fields forallb fst] in Hf. apply andb_true_iff in Hf.
  destruct Hf as [Hk Hrest]. unfold is_field in Hk.
  cbn [update_loop]. unfold getattr, setattr.
  destruct (column_of k) as [c|]; [|discriminate].
  destruct (negb (truthy (get_column o c))); [reflexivity|].
  specialize (IH (set_column o c v) Hrest).
  destruct (update_loop (set_column o c v) rest) as [o'|r o'|e o'];
    rewrite IH; destruct c; try discriminate; reflexivity.
Qed.

Lemma flush_id (r r' : PersonDB) (o : instance) :
  flush r o = Some r' -> a_id o = PInt (id r) -> id r' = id r.
Proof.
  unfold flush. intros H E. rewrite E, flush_Integer_same in H.
  destruct (flush_String (name r) (a_name o)); [|discriminate].
  destruct (flush_Integer (age r) (a_age o)); [|discriminate].
  destruct (flush_String (address r) (a_address o)); [|discriminate].
  destruct (flush_String (work r) (a_work o)); [|discriminate].
  now injection H as <-.
Qed.

(** A PATCH over the four fields leaves the ids of the table as they are. *)
Lemma update_person_fields_ids (person_id : Z) (person : dict) (db : database) :
  over_fields person = true ->
  map id (snd (get_db (update_person person_id person) db)) = map id db.
Proof.
  intro Hf. rewrite update_person_get_db.
  destruct (query_first person_id db) as [e|[row|]]; try reflexivity.
  pose proof (update_loop_fields person (load row) Hf) as Hloop.
  destruct (update_loop (load row) person) as [o|r o|e o]; try reflexivity.
  destruct (commit_update row o db) as [e|[row' db']] eqn:Hc; [reflexivity|].
  cbn [snd]. pose proof (commit_update_flush _ _ _ _ _ Hc) as Hfl.
  apply flush_id in Hfl; [|exact Hloop].
  apply commit_update_table in Hc. destruct Hc as [[_ ->]|[-> _]]; [reflexivity|].
  now apply map_id_updated.
Qed.

Lemma select_first_filter_none (i : Z) (g : PersonDB -> bool) (db : database) :
  select_first i db = None -> select_first i (filter g db) = None.
Proof.
  rewrite !select_first_none. intros H r Hr. apply filter_In in Hr. now apply H.
Qed.

Lemma select_first_filter_same (i : Z) (db : database) :
  select_first i (filter (fun x => negb (id x =? i)) db) = None.
Proof.
  apply select_first_none. intros r Hr. apply filter_In in Hr.
  destruct Hr as [_ Hr]. now apply negb_true_iff, Z.eqb_neq in Hr.
Qed.

Lemma location_str (i j : Z) :
  (("/persons/" ++ str i)%string =? ("/persons/" ++ str j)%string)%string = false ->
  i <> j.
Proof. intros H ->. now rewrite String.eqb_refl in H. Qed.

(** An id without a row has none after a request that keeps the ids and
    is not answered with the location of a record under it. *)
Lemma app_keeps_absent (i : Z) (req : request) (db : database) :
  select_first i db = None ->
  keeps_ids req = true -> creates i req db = false ->
  select_first i (snd (app req db)) = None.
Proof.
  intros Hq Hk Hc. unfold creates in Hc. rewrite fst_app in Hc. rewrite snd_app.
  destruct req as [j| |body|j body|j]; cbn [dispatch] in *.
  - rewrite read_person_get_db. now destruct (query_first j db) as [e|[r|]].
  - exact Hq.
  - destruct (validate_PersonCreate body) as [errs|p]; cbn [validated] in *;
      [exact Hq|].
    rewrite create_person_get_db in *.
    destruct (storable (pc_age p)); [|exact Hq].
    destruct (next_id db) as [n|]; [|exact Hq].
    cbn in Hc. apply location_str in Hc.
    cbn [snd]. rewrite select_first_app_fresh by exact Hq.
    unfold select_first. simpl. destruct (Z.eqb_spec n i); congruence.
  - destruct body; cbn [validate_dict validated keeps_ids] in *; try exact Hq.
    apply select_first_In_ids. rewrite update_person_fields_ids by exact Hk.
    now apply select_first_In_ids.
  - rewrite delete_person_get_db. destruct (query_first j db) as [e|[r|]];
      try exact Hq.
    now apply select_first_filter_none.
Qed.

Lemma run_keeps_absent (i : Z) (reqs : list request) :
  forall db : database,
    select_first i db = None -> never_created i reqs db = true ->
    select_first i (run reqs db) = None.
Proof.
  induction reqs as [|req reqs IH]; intros db Hq Hn; [exact Hq|].
  cbn [never_created] in Hn. apply andb_true_iff in Hn. destruct Hn as [Hn Hrest].
  apply andb_true_iff in Hn. destruct Hn as [Hk Hc].
  apply negb_true_iff in Hc.
  unfold run. cbn [fold_left]. apply IH; [|exact Hrest].
  now apply app_keeps_absent.
Qed.

(** ** Absent ids *)

(** C5 (amended): for an id the store can hold and that has no row,
    because the table had none under it or was the one a DELETE of that id
    left, and because no request since was answered with the location of a
    record under it or was a PATCH naming a key other than the four fields:
    GET, PATCH with any JSON object and DELETE on the id each answer 404
    with body {"detail": "Not found"}, the table untouched. *)
Theorem absent_id_not_found (person_id : Z) (person : dict)
        (reqs : list request) (db0 : database) :
  storable person_id = true ->
  (select_first person_id db0 = None
   \/ exists db1, db0 = snd (app (DELETE_person person_id) db1)) ->
  never_created person_id reqs db0 = true ->
  let db := run reqs db0 in
  let not_found := JSONResponse (PDict [("detail", PStr "Not found")]) 404 in
  app (GET_person person_id) db = (not_found, db)
  /\ app (PATCH_person person_id (PDict person)) db = (not_found, db)
  /\ app (DELETE_person person_id) db = (not_found, db).
Proof.
  intros Hst H Hn db not_found.
  assert (Hq0 : select_first person_id db0 = None).
  { destruct H as [H|[db1 ->]]; [exact H|].
    unfold app. cbn [dispatch]. rewrite delete_person_get_db.
    rewrite (query_first_storable _ _ Hst).
    destruct (select_first person_id db1) as [r|] eqn:Hq1; simpl; [|exact Hq1].
    apply select_first_filter_same. }
  assert (Hq : query_first person_id db = inr None).
  { rewrite (query_first_storable _ _ Hst). f_equal.
    now apply run_keeps_absent. }
  unfold app; cbn [dispatch validated validate_dict].
  rewrite read_person_get_db, update_person_get_db, delete_person_get_db, Hq.
  repeat split.
Qed.

(** ** Null *)

Lemma dict_get_wf (person : dict) (k : string) (v : pyval) :
  dict_wf person -> In (k, v) person -> dict_get person k = Some v.
Proof.
  unfold dict_wf. induction person as [|[k' v'] rest IH]; [contradiction|].
  cbn [keys map fst dict_get]. intros Hwf Hin.
  inversion Hwf as [|? ? Hnotin Hwf']; subst.
  destruct Hin as [[= -> ->]|Hin]; [now rewrite String.eqb_refl|].
  destruct (String.eqb_spec k' k) as [->|_]; [|now apply IH].
  exfalso. apply Hnotin. change k with (fst (k, v)). now apply in_map.
Qed.

(** No UPDATE for an object with null in a column. *)
Lemma flush_null (r : PersonDB) (o : instance) (c : column) :
  get_column o c = PNone -> flush r o = None.
Proof.
  intro H. unfold flush.
  destruct c; cbn [get_column] in H; rewrite H;
    unfold flush_Integer, flush_String; cbn [py_eq_int py_eq_str];
    rewrite ?bind_Integer_None, ?bind_String_None;
    repeat match goal with
           | |- context [if ?b then _ else _] => destruct b
           | |- context [match bind_Integer ?v with _ => _ end] =>
               destruct (bind_Integer v)
           | |- context [match bind_String ?v with _ => _ end] =>
               destruct (bind_String v)
           end; reflexivity.
Qed.

(** A PATCH over the attributes that supplies null writes nothing. *)
Lemma update_person_null (person_id : Z) (person : dict) (db : database)
      (k : string) :
  dict_wf person -> over_attributes person -> In (k, PNone) person ->
  snd (get_db (update_person person_id person) db) = db.
Proof.
  intros Hwf Hattr Hin. rewrite update_person_get_db.
  destruct (query_first person_id db) as [e|[row|]]; try reflexivity.
  pose proof (update_loop_attributes row person (load row) Hattr Hwf
                (fun k c _ _ => get_column_load row c)) as Hloop.
  destruct (update_loop (load row) person) as [o|r o|e o]; try reflexivity.
  destruct Hloop as [_ ->].
  assert (Hc : exists c, column_of k = Some c).
  { unfold over_attributes in Hattr. rewrite Forall_forall in Hattr.
    specialize (Hattr k). destruct (column_of k) as [c|]; [now exists c|].
    exfalso. apply Hattr; [|reflexivity].
    change k with (fst (k, PNone)). now apply in_map. }
  destruct Hc as [c Hc]. apply column_of_name in Hc. subst k.
  unfold commit_update. rewrite (flush_null row _ c); [reflexivity|].
  rewrite get_column_assign by assumption.
  now rewrite (dict_get_wf _ _ _ Hwf Hin).
Qed.

(** ** Validation of POST *)


Lemma not_str_refused (v : option pyval) :
  not_str v <-> exists k, validate_str v = inl k.
Proof.
  unfold not_str. destruct v as [[| | | |x| |]|]; simpl; split;
    try (intros _; eexists; reflexivity); try (intros _ s; discriminate).
  - intro H. now specialize (H x).
  - intros [k Hk]. discriminate.
Qed.

Lemma not_int_refused (v : option pyval) :
  not_int v <-> exists k, validate_int v = inl k.
Proof.
  destruct v as [[| | | | | |]|]; simpl; split;
    try (intros _; eexists; reflexivity); try (intros _; exact I);
    try tauto; try (intros [k Hk]; discriminate).
Qed.


Lemma finite_dict_get (d : dict) (k : string) (v : pyval) :
  finite (PDict d) = true -> dict_get d k = Some v -> finite v = true.
Proof.
  intros Hf Hg. apply dict_get_In in Hg. cbn [finite] in Hf.
  rewrite forallb_forall in Hf. exact (Hf (k, v) Hg).
Qed.

Lemma field_error_finite {A : Type} (d : dict) (f : string) (r : string + A) :
  finite (PDict d) = true ->
  forallb (fun e => finite (input e)) (field_error d f r) = true.
Proof.
  intro Hf. destruct r as [k|a]; [|reflexivity].
  cbn [field_error forallb input]. rewrite andb_true_r.
  destruct (dict_get d f) as [v|] eqn:Hg; [|exact Hf].
  exact (finite_dict_get _ _ _ Hf Hg).
Qed.

(** A body that fails: its diagnostics. *)
Lemma validate_PersonCreate_fails (body : pyval) :
  fails_PersonCreate body ->
  exists errs,
    errs <> [] /\ validate_PersonCreate body = inl errs
    /\ (finite body = true -> forallb (fun e => finite (input e)) errs = true)
    /\ forall d, body = PDict d -> errs =
         field_error d "name" (validate_str (dict_get d "name"))
         ++ field_error d "age" (validate_int (dict_get d "age"))
         ++ field_error d "address" (validate_str (dict_get d "address"))
         ++ field_error d "work" (validate_str (dict_get d "work")).
Proof.
  intro Hfail.
  destruct body as [| | | | | |d];
    try (eexists; split; [|split; [reflexivity|split]];
         [discriminate
         | cbn [forallb input]; intro Hf; now rewrite andb_true_r
         | intros ? [=]]).
  cbn [fails_PersonCreate] in Hfail. unfold validate_PersonCreate.
  assert (Hfail' : (exists k, validate_str (dict_get d "name") = inl k)
                   \/ (exists k, validate_int (dict_get d "age") = inl k)
                   \/ (exists k, validate_str (dict_get d "address") = inl k)
                   \/ (exists k, validate_str (dict_get d "work") = inl k)).
  { destruct Hfail as [H|[H|[H|H]]];
      [apply not_str_refused in H | apply not_int_refused in H
       | apply not_str_refused in H | apply not_str_refused in H]; tauto. }
  clear Hfail.
  destruct (validate_str (dict_get d "name")) as [kn|n] eqn:Hn;
    destruct (validate_int (dict_get d "age")) as [ka|a] eqn:Ha;
    destruct (validate_str (dict_get d "address")) as [kad|ad] eqn:Had;
    destruct (validate_str (dict_get d "work")) as [kw|w] eqn:Hw;
    try (eexists; split; [|split; [reflexivity|split]];
         [discriminate
         | intro Hf; rewrite !forallb_app, !field_error_finite by exact Hf;
           reflexivity
         | intros ? [= <-]; now rewrite Hn, Ha, Had, Hw]).
  exfalso. destruct Hfail' as [[k H]|[[k H]|[[k H]|[k H]]]]; discriminate.
Qed.

Lemma create_person_refused (body : pyval) (db : database) (errs : list diagnostic) :
  validate_PersonCreate body = inl errs ->
  dispatch (POST_persons body) db = (Raise (RequestValidationError errs), db).
Proof. intro Hv. unfold dispatch. now rewrite Hv. Qed.

(** ** Truthy fields *)

Lemma load_truthy (r : PersonDB) : person_truthy r = true -> instance_truthy (load r).
Proof.
  unfold person_truthy. intros H c Hc.
  repeat (apply andb_prop in H; destruct H as [H ?]).
  destruct c; simpl in *; congruence.
Qed.

Lemma update_loop_truthy (person : dict) :
  forall o o' : instance,
    update_loop o person = Exhausted o' ->
    forallb truthy_item person = true ->
    instance_truthy o -> instance_truthy o'.
Proof.
  induction person as [|[k v] rest IH]; intros o o' Hloop Hitems Ho.
  - simpl in Hloop. now injection Hloop as <-.
  - cbn [update_loop] in Hloop. cbn [forallb] in Hitems.
    apply andb_prop in Hitems. destruct Hitems as [Hkv Hrest].
    destruct (getattr o k) as [e|cur] eqn:Hget; [discriminate|].
    destruct (negb (truthy cur)); [discriminate|].
    destruct (setattr o k v) as [e|o1] eqn:Hset; [discriminate|].
    apply (IH o1 o' Hloop Hrest).
    unfold setattr in Hset. unfold getattr in Hget.
    unfold truthy_item in Hkv. cbn [fst snd] in Hkv.
    destruct (column_of k) as [c|].
    + injection Hset as <-. intros c' Hc'.
      destruct c, c'; try congruence; simpl; try exact Hkv;
        match goal with
        | |- context [?f o] => apply (Ho _ Hc')
        end.
    + assert (Hsame : forall c, get_column o1 c = get_column o c).
      { destruct (dict_get (a_dict o) k);
          [|destruct (String.eqb k "__tablename__");
            [|destruct (Base_getattr k); discriminate]];
          injection Hset as <-; intros []; reflexivity. }
      intros c' Hc'. rewrite Hsame. now apply Ho.
Qed.

Lemma flush_Integer_value (loaded z z' : Z) :
  flush_Integer loaded (PInt z) = Some z' -> z' = z.
Proof.
  unfold flush_Integer. simpl. destruct (Z.eqb_spec z loaded) as [->|_].
  - now intros [= <-].
  - rewrite bind_Integer_int. destruct (storable z); [now intros [= <-] | discriminate].
Qed.

Lemma flush_String_value (loaded s s' : string) :
  flush_String loaded (PStr s) = Some s' -> s' = s.
Proof.
  unfold flush_String. simpl. destruct (String.eqb_spec s loaded) as [->|_].
  - now intros [= <-].
  - rewrite bind_String_str. now intros [= <-].
Qed.

Lemma flush_truthy (r r' : PersonDB) (o : instance) :
  instance_truthy o -> flush r o = Some r' -> person_truthy r' = true.
Proof.
  intros Ho. unfold flush.
  pose proof (Ho c_name ltac:(discriminate)) as Hn.
  pose proof (Ho c_age ltac:(discriminate)) as Ha.
  pose proof (Ho c_address ltac:(discriminate)) as Had.
  pose proof (Ho c_work ltac:(discriminate)) as Hw.
  cbn [get_column] in Hn, Ha, Had, Hw.
  destruct (a_name o) as [| | | |n| |]; try discriminate.
  destruct (a_age o) as [| |a| | | |]; try discriminate.
  destruct (a_address o) as [| | | |ad| |]; try discriminate.
  destruct (a_work o) as [| | | |w| |]; try discriminate.
  destruct (flush_Integer (id r) (a_id o)); [|discriminate].
  destruct (flush_String (name r) (PStr n)) as [n'|] eqn:En; [|discriminate].
  destruct (flush_Integer (age r) (PInt a)) as [a'|] eqn:Ea; [|discriminate].
  destruct (flush_String (address r) (PStr ad)) as [ad'|] eqn:Ead; [|discriminate].
  destruct (flush_String (work r) (PStr w)) as [w'|] eqn:Ew; [|discriminate].
  apply flush_String_value in En, Ead, Ew. apply flush_Integer_value in Ea. subst.
  intros [= <-]. unfold person_truthy.
  cbn [fits andb] in Hn, Ha, Had, Hw. cbn [name age address work].
  now rewrite Hn, Ha, Had, Hw.
Qed.

Lemma update_person_truthy (person_id : Z) (person : dict) (db : database) :
  forallb person_truthy db = true ->
  forallb truthy_item person = true ->
  forallb person_truthy (snd (get_db (update_person person_id person) db)) = true.
Proof.
  intros Hdb Hitems. rewrite update_person_get_db.
  destruct (query_first person_id db) as [e|[row|]] eqn:Hq0; try exact Hdb.
  destruct (query_first_found _ _ _ Hq0) as [_ Hq].
  destruct (update_loop (load row) person) as [o| |] eqn:Hloop; try exact Hdb.
  assert (Ho : instance_truthy o).
  { apply (update_loop_truthy _ _ _ Hloop Hitems), load_truthy.
    apply select_first_some in Hq. destruct Hq as [Hin _].
    exact (proj1 (forallb_forall _ _) Hdb row Hin). }
  destruct (commit_update row o db) as [e|[row' db']] eqn:Hc; [exact Hdb|].
  pose proof (flush_truthy _ _ _ Ho (commit_update_flush _ _ _ _ _ Hc)) as Hrow'.
  apply commit_update_table in Hc. destruct Hc as [[_ ->]|[-> _]]; [exact Hdb|].
  cbn [snd]. apply forallb_forall. intros x Hx. apply in_map_iff in Hx.
  destruct Hx as [y [<- Hy]]. destruct (id y =? id row); [exact Hrow'|].
  exact (proj1 (forallb_forall _ _) Hdb y Hy).
Qed.

Lemma app_truthy (req : request) (db : database) :
  forallb person_truthy db = true ->
  supplies_truthy req = true ->
  forallb person_truthy (snd (app req db)) = true.
Proof.
  intros Hdb Hreq. rewrite snd_app.
  destruct req as [i| |body|i body|i]; cbn [dispatch supplies_truthy] in *.
  - rewrite read_person_get_db. now destruct (query_first i db) as [e|[r|]].
  - exact Hdb.
  - destruct (validate_PersonCreate body) as [errs|p]; cbn [validated];
      [exact Hdb|].
    rewrite create_person_get_db.
    destruct (storable (pc_age p)); [|exact Hdb].
    destruct (next_id db) as [n|]; [|exact Hdb].
    cbn [snd]. rewrite forallb_app, Hdb. cbn [forallb].
    change (person_truthy (PersonCreate_row n p))
      with (person_truthy (PersonCreate_row 0 p)).
    now rewrite Hreq.
  - unfold validate_dict. destruct body; cbn [validated]; try exact Hdb.
    now apply update_person_truthy.
  - rewrite delete_person_get_db.
    destruct (query_first i db) as [e|[r|]]; try exact Hdb.
    cbn [snd]. apply forallb_forall. intros x Hx.
    apply filter_In in Hx. destruct Hx as [Hx _].
    exact (proj1 (forallb_forall _ _) Hdb x Hx).
Qed.

Lemma run_truthy (reqs : list request) :
  forall db : database,
    forallb person_truthy db = true ->
    forallb supplies_truthy reqs = true ->
    forallb person_truthy (run reqs db) = true.
Proof.
  induction reqs as [|req reqs IH]; intros db Hdb Hreqs.
  - exact Hdb.
  - cbn [forallb] in Hreqs. apply andb_prop in Hreqs.
    destruct Hreqs as [Hreq Hreqs].
    unfold run. cbn [fold_left]. apply IH; [|exact Hreqs].
    now apply app_truthy.
Qed.

(** C4 (amended): the invariant that every stored Person has truthy name,
    age, address and work is preserved by every run of requests that bring
    only truthy values of the right type for these fields (POST payloads
    that validate to non-empty strings and a non-zero age, PATCH items that
    are non-empty strings and a non-zero integer, and no PATCH key under
    which the object has an attribute that is no column).  Null is not
    stored: a PATCH over the person's attributes that supplies null for
    one of them leaves the table as it was, and a POST with null in one of
    the four fields fails validation, the table as it was. *)
Theorem truthy_fields_preserved (reqs : list request) (db : database) :
  (forallb person_truthy db = true ->
   forallb supplies_truthy reqs = true ->
   forallb person_truthy (run reqs db) = true)
  /\ (forall (person_id : Z) (person : dict) (k : string),
         dict_wf person -> over_attributes person -> In (k, PNone) person ->
         snd (app (PATCH_person person_id (PDict person)) db) = db)
  /\ (forall (d : dict) (k : string),
         is_field k = true -> dict_get d k = Some PNone ->
         exists errs,
           dispatch (POST_persons (PDict d)) db
           = (Raise (RequestValidationError errs), db)).
Proof.
  split; [apply run_truthy | split].
  - intros person_id person k Hwf Hattr Hin. rewrite snd_app.
    cbn [dispatch validate_dict validated].
    now apply (update_person_null _ _ _ k).
  - intros d k Hk Hget.
    assert (Hfail : fails_PersonCreate (PDict d)).
    { cbn [fails_PersonCreate]. unfold is_field in Hk.
      destruct (column_of k) as [c|] eqn:Hc; [|discriminate].
      apply column_of_name in Hc. subst k.
      destruct c; try discriminate; cbn [column_name] in Hget; rewrite Hget.
      - left. intros s. discriminate.
      - right. left. exact I.
      - right. right. left. intros s. discriminate.
      - right. right. right. intros s. discriminate. }
    destruct (validate_PersonCreate_fails _ Hfail) as [errs [_ [Hv _]]].
    exists errs. now apply create_person_refused.
Qed.


(** ** The Location header *)




(** A POST the store accepts. *)
Lemma create_person_201 (body : pyval) (p : PersonCreate) (db : database) (i : Z) :
  validate_PersonCreate body = inr p ->
  storable (pc_age p) = true ->
  next_id db = Some i ->
  app (POST_persons body) db
  = (mkResponse 201 [("Location", ("/persons/" ++ str i)%string)] PNone,
     db ++ [PersonCreate_row i p]).
Proof.
  intros Hv Hage Hn. unfold app, dispatch. rewrite Hv. cbn [validated].
  now rewrite create_person_get_db, Hage, Hn.
Qed.



(** ** Listing *)

(** C8 (what the code does): on the empty table, two creates are answered
    201 and stored under the ids 1 and 2; PATCH /persons/1 with the body
    {"id": 3} is answered 200 and rewrites the key of the first record;
    GET /persons then lists the record created second before the record
    created first. *)
Theorem read_persons_rekeyed_order :
  let create_john := POST_persons (PDict TEST_PERSON_DATA) in
  let create_jane := POST_persons (PDict TEST_PERSON_UPDATE_DATA) in
  let rekey := PATCH_person 1 (PDict [("id", PInt 3)]) in
  app create_john []
  = (mkResponse 201 [("Location", "/persons/1")] PNone, [john])
  /\ app create_jane [john]
     = (mkResponse 201 [("Location", "/persons/2")] PNone, [john; jane2])
  /\ app rekey [john; jane2]
     = (JSONResponse (PersonResponse (with_id 3 john)) 200, [with_id 3 john; jane2])
  /\ fst (app GET_persons (run [create_john; create_jane; rekey] []))
     = JSONResponse (PList [PersonResponse jane2; PersonResponse (with_id 3 john)]) 200.
Proof.
  intros create_john create_jane rekey.
  assert (H1 : app create_john []
               = (mkResponse 201 [("Location", "/persons/1")] PNone, [john])).
  { exact (create_person_201 (PDict TEST_PERSON_DATA)
             (mkPersonCreate "John Doe" 30 "123" "123") [] 1
             eq_refl eq_refl eq_refl). }
  assert (H2 : app create_jane [john]
               = (mkResponse 201 [("Location", "/persons/2")] PNone, [john; jane2])).
  { exact (create_person_201 (PDict TEST_PERSON_UPDATE_DATA)
             (mkPersonCreate "Jane Smith" 25 "456" "456") [john] 2
             eq_refl eq_refl eq_refl). }
  assert (H3 : app rekey [john; jane2]
               = (JSONResponse (PersonResponse (with_id 3 john)) 200,
                  [with_id 3 john; jane2])).
  { subst rekey.
    unfold app, dispatch; cbn [validated validate_dict];
      unfold get_db, update_person. cbn.
    unfold commit, commit_update, flush. cbn.
    unfold flush_Integer, flush_String. cbn.
    rewrite bind_Integer_int. reflexivity. }
  split; [exact H1|]. split; [exact H2|]. split; [exact H3|].
  unfold run. cbn [fold_left]. rewrite H1. cbn [snd]. rewrite H2. cbn [snd].
  rewrite H3. reflexivity.
Qed.

End Properties.

(** * The properties on the data of the test suite *)

Lemma TEST_PERSON_UPDATE_DATA_wf : dict_wf TEST_PERSON_UPDATE_DATA.
Proof.
  unfold dict_wf, TEST_PERSON_UPDATE_DATA. simpl.
  repeat constructor; simpl; intuition discriminate.
Defined.

Lemma TEST_PERSON_UPDATE_DATA_attributes : over_attributes TEST_PERSON_UPDATE_DATA.
Proof.
  unfold over_attributes, TEST_PERSON_UPDATE_DATA. simpl.
  repeat constructor; discriminate.
Defined.

Lemma TEST_PERSON_UPDATE_DATA_typed : well_typed TEST_PERSON_UPDATE_DATA.
Proof.
  intros k v c Hin Hc. unfold TEST_PERSON_UPDATE_DATA in Hin. simpl in Hin.
  repeat (destruct Hin as [Hin|Hin];
          [injection Hin as <- <-; injection Hc as <-; reflexivity|]).
  contradiction.
Defined.





(** Witness of C2: the name is assigned in the session before the zero
    age is met, and the table keeps the name it had. *)
Lemma update_person_rejected_unchanged_witness :
  let zero := mkPersonDB 1 "John Doe" 0 "123" "123" in
  let person := [("name", PStr "Jane Smith"); ("age", PInt 25)] in
  let answer := @app reference_platform (PATCH_person 1 (PDict person)) [zero] in
  (query_first 1 [zero] = inr (Some zero)
   /\ dict_wf person /\ over_attributes person
   /\ names_falsy zero person = true)
  /\ @update_person reference_platform 1 person (SessionLocal [zero])
     = (Return (error_response "Invalid data" 400),
        mkSession [zero]
          (Loaded zero (mkInstance (PInt 1) (PStr "Jane Smith") (PInt 0)
                                   (PStr "123") (PStr "123") [])))
  /\ (exists before k v after,
        person = before ++ (k, v) :: after
        /\ @update_person reference_platform 1 person (SessionLocal [zero])
           = (Return (error_response "Invalid data" 400),
              mkSession [zero] (Loaded zero (assign (load zero) before))))
  /\ status_code (fst answer) = 400
  /\ snd answer = [zero]
  /\ @app reference_platform (GET_person 1) (snd answer)
     = (JSONResponse (PersonResponse zero) 200, [zero]).
Proof.
  intros zero person answer.
  assert (Hwf : dict_wf person).
  { unfold dict_wf, person. simpl. repeat constructor; simpl; intuition discriminate. }
  assert (Hattr : over_attributes person).
  { unfold over_attributes, person. simpl. repeat constructor; discriminate. }
  split; [repeat split; assumption|].
  split; [reflexivity|].
  exact (@update_person_rejected_unchanged reference_platform 1 person
           [zero] zero eq_refl Hwf Hattr eq_refl).
Defined.

(** C2 as stated fails: the body {"nickname": "JJ", "age": 25} names the
    field age, whose stored value is zero, and the handler raises
    [AttributeError] at its first key: the answer is the server error, not
    400. *)
Lemma update_person_foreign_key_counterexample :
  let zero := mkPersonDB 1 "John Doe" 0 "123" "123" in
  let person := [("nickname", PStr "JJ"); ("age", PInt 25)] in
  query_first 1 [zero] = inr (Some zero)
  /\ names_falsy zero person = true
  /\ @dispatch reference_platform (PATCH_person 1 (PDict person)) [zero]
     = (Raise (AttributeError "nickname"), [zero])
  /\ @app reference_platform (PATCH_person 1 (PDict person)) [zero]
     = (mkResponse 500 [] (PStr "Internal Server Error"), [zero]).
Proof. repeat split. Qed.

(** Witness of C9. *)
Lemma update_person_empty_body_witness :
  query_first 1 [john] = inr (Some john)
  /\ @app reference_platform (PATCH_person 1 (PDict [])) [john]
     = (JSONResponse (PersonResponse john) 200, [john]).
Proof.
  split; [reflexivity|].
  exact (@update_person_empty_body reference_platform 1 [john] john eq_refl).
Defined.

(** Witness of C5: the missing person of the test suite, after the create
    of the test suite on the empty table. *)
Lemma absent_id_not_found_witness :
  let reqs := [POST_persons (PDict TEST_PERSON_DATA)] in
  (storable 999 = true
   /\ select_first 999 [] = None
   /\ @never_created reference_platform 999 reqs [] = true
   /\ @run reference_platform reqs [] = [john])
  /\ @app reference_platform (GET_person 999) [john]
     = (JSONResponse (PDict [("detail", PStr "Not found")]) 404, [john])
  /\ @app reference_platform (PATCH_person 999 (PDict TEST_PERSON_UPDATE_DATA)) [john]
     = (JSONResponse (PDict [("detail", PStr "Not found")]) 404, [john])
  /\ @app reference_platform (DELETE_person 999) [john]
     = (JSONResponse (PDict [("detail", PStr "Not found")]) 404, [john]).
Proof.
  intro reqs. split; [repeat split|].
  exact (@absent_id_not_found reference_platform 999 TEST_PERSON_UPDATE_DATA reqs []
           eq_refl (or_introl eq_refl) eq_refl).
Defined.

(** C5 as stated fails: no record was ever created under the id 2^63,
    which the store cannot hold; the lookup raises while the id is bound
    and GET, PATCH and DELETE on it are answered with the server error,
    not 404. *)
Lemma absent_id_overflow_counterexample :
  let person_id := 9223372036854775808 in
  @app reference_platform (GET_person person_id) []
  = (mkResponse 500 [] (PStr "Internal Server Error"), [])
  /\ @app reference_platform (PATCH_person person_id (PDict TEST_PERSON_UPDATE_DATA)) []
     = (mkResponse 500 [] (PStr "Internal Server Error"), [])
  /\ @app reference_platform (DELETE_person person_id) []
     = (mkResponse 500 [] (PStr "Internal Server Error"), []).
Proof. repeat split. Qed.

(** Witness of C10. *)
Lemma update_person_unknown_key_witness :
  query_first 1 [john] = inr (Some john)
  /\ column_of "nickname" = None
  /\ @Base_getattr reference_platform "nickname" = None
  /\ @dispatch reference_platform
       (PATCH_person 1 (PDict [("name", PStr "Jane Smith"); ("nickname", PStr "JJ");
                               ("age", PInt 25)])) [john]
     = (Raise (AttributeError "nickname"), [john]).
Proof.
  repeat (split; [reflexivity|]).
  refine (proj1 (@update_person_unknown_key reference_platform 1
                   [("name", PStr "Jane Smith")] [("age", PInt 25)]
                   "nickname" (PStr "JJ") [john] john eq_refl _ _ eq_refl eq_refl _ eq_refl)).
  - unfold dict_wf. simpl. repeat constructor; simpl; intuition.
  - unfold over_attributes. simpl. repeat constructor; discriminate.
  - discriminate.
Defined.

(** C10 as stated fails: with a stored age of zero the body
    {"age": 25, "nickname": "JJ"} is answered 400 at its first key, and the
    key [__tablename__], which is none of the five, finds the attribute of
    the class body and is answered 200. *)
Lemma update_person_other_key_counterexample :
  let zero := mkPersonDB 1 "John Doe" 0 "123" "123" in
  column_of "nickname" = None
  /\ @dispatch reference_platform
       (PATCH_person 1 (PDict [("age", PInt 25); ("nickname", PStr "JJ")])) [zero]
     = (Return (error_response "Invalid data" 400), [zero])
  /\ column_of "__tablename__" = None
  /\ @dispatch reference_platform
       (PATCH_person 1 (PDict [("__tablename__", PStr "people")])) [john]
     = (Return (JSONResponse (PersonResponse john) 200), [john]).
Proof. repeat split. Qed.

(** Witness of C4: the create and the update of the test suite keep the
    fields truthy; a PATCH and a POST with a null name write nothing. *)
Lemma truthy_fields_preserved_witness :
  let reqs := [POST_persons (PDict TEST_PERSON_DATA);
               PATCH_person 1 (PDict TEST_PERSON_UPDATE_DATA)] in
  let null_name := [("name", PNone); ("age", PInt 25)] in
  (forallb person_truthy [] = true
   /\ forallb (@supplies_truthy reference_platform) reqs = true
   /\ forallb person_truthy (@run reference_platform reqs []) = true)
  /\ (dict_wf null_name /\ over_attributes null_name
      /\ snd (@app reference_platform (PATCH_person 1 (PDict null_name)) [john])
         = [john])
  /\ (is_field "name" = true
      /\ exists errs,
          @dispatch reference_platform (POST_persons (PDict null_name)) [john]
          = (Raise (RequestValidationError errs), [john])).
Proof.
  intros reqs null_name.
  assert (Hwf : dict_wf null_name).
  { unfold dict_wf, null_name. simpl. repeat constructor; simpl; intuition discriminate. }
  assert (Hattr : over_attributes null_name).
  { unfold over_attributes, null_name. simpl. repeat constructor; discriminate. }
  split; [|split].
  - split; [reflexivity|]. split; [reflexivity|].
    exact (proj1 (@truthy_fields_preserved reference_platform reqs []) eq_refl eq_refl).
  - split; [exact Hwf|]. split; [exact Hattr|].
    exact (proj1 (proj2 (@truthy_fields_preserved reference_platform [] [john]))
             1 null_name "name" Hwf Hattr (or_introl eq_refl)).
  - split; [reflexivity|].
    exact (proj2 (proj2 (@truthy_fields_preserved reference_platform [] [john]))
             null_name "name" eq_refl eq_refl).
Defined.

(** C4 as stated fails: a POST stores empty strings and a zero age, and a
    PATCH replaces truthy values by them. *)
Lemma truthy_fields_counterexample :
  let empty := PDict [("name", PStr ""); ("age", PInt 0);
                      ("address", PStr ""); ("work", PStr "")] in
  @run reference_platform [POST_persons empty] [] = [mkPersonDB 1 "" 0 "" ""]
  /\ @run reference_platform
       [POST_persons (PDict TEST_PERSON_DATA);
        PATCH_person 1 (PDict [("name", PStr ""); ("age", PInt 0)])] []
     = [mkPersonDB 1 "" 0 "123" "123"]
  /\ person_truthy (mkPersonDB 1 "" 0 "" "") = false
  /\ person_truthy (mkPersonDB 1 "" 0 "123" "123") = false.
Proof. repeat split. Qed.





(** And a failing body is not always answered 422: with NaN for the name
    the diagnostic echoes a value that has no rendering, and the answer is
    the server error. *)
Lemma create_person_nan_server_error :
  @app reference_platform
    (POST_persons (PDict [("name", PFloat FNan); ("age", PInt 30);
                          ("address", PStr "123"); ("work", PStr "123")])) []
  = (mkResponse 500 [] (PStr "Internal Server Error"), []).
Proof. reflexivity. Qed.

(** * Further properties of the handlers *)

Section Further.

Context {platform : Platform}.

(** ** Requests that fail *)

Lemma update_loop_raised (person : dict) :
  forall (o o' : instance) (e : exception),
    update_loop o person = Raised e o' ->
    e = TypeError \/ exists k, e = AttributeError k.
Proof.
  induction person as [|[k v] rest IH]; intros o o' e; cbn [update_loop].
  - discriminate.
  - unfold getattr, setattr.
    destruct (column_of k) as [c|].
    + destruct (negb (truthy (get_column o c))); [discriminate | apply IH].
    + destruct (dict_get (a_dict o) k) as [cur|].
      * destruct (negb (truthy cur)); [discriminate | apply IH].
      * destruct (String.eqb k "__tablename__").
        -- cbn [truthy String.eqb negb]. apply IH.
        -- destruct (Base_getattr k) as [cur|].
           ++ destruct (negb (truthy cur)); [discriminate|].
              destruct (Base_setattr k v o); [apply IH|]. intros [= <- _]. now left.
           ++ intros [= <- _]. right. now exists k.
Qed.

(** X1: a request within the schema that is answered with an error status
    (400 and above) leaves the table exactly as it was: nothing is written
    but by a commit that went through. *)
Theorem error_answer_rolls_back (req : request) (db : database) :
  within_schema req ->
  400 <= status_code (fst (app req db)) -> snd (app req db) = db.
Proof.
  intros _. unfold app. destruct req as [i| |body|i body|i]; cbn [dispatch].
  - rewrite read_person_get_db. now destruct (query_first i db) as [e|[r|]].
  - reflexivity.
  - destruct (validate_PersonCreate body) as [errs|p]; cbn [validated];
      [reflexivity|].
    rewrite create_person_get_db.
    destruct (storable (pc_age p)); [|reflexivity].
    destruct (next_id db); [cbn; lia | reflexivity].
  - destruct body; cbn [validate_dict validated]; try reflexivity.
    rewrite update_person_get_db.
    destruct (query_first i db) as [e|[row|]]; try reflexivity.
    destruct (update_loop (load row) d) as [o|r o|e o]; try reflexivity.
    destruct (commit_update row o db) as [e|[row' db']]; [reflexivity|].
    cbn. lia.
  - rewrite delete_person_get_db.
    destruct (query_first i db) as [e|[r|]]; [reflexivity | cbn; lia | reflexivity].
Qed.

(** ** The primary key stays unique *)

Lemma unique_ids_update (r r' : PersonDB) (db : database) :
  unique_ids db ->
  (id r' = id r \/ select_first (id r') db = None) ->
  unique_ids (map (fun x => if id x =? id r then r' else x) db).
Proof.
  unfold unique_ids. intros Hu Hfree.
  replace (map id (map (fun x => if id x =? id r then r' else x) db))
    with (map (fun i => if i =? id r then id r' else i) (map id db)).
  - apply NoDup_map_NoDup_ForallPairs; [|exact Hu].
    intros a b Ha Hb.
    destruct (Z.eqb_spec a (id r)) as [->|Na], (Z.eqb_spec b (id r)) as [->|Nb];
      try congruence; intro E; exfalso;
      (destruct Hfree as [E'|Hnone];
       [congruence | apply select_first_In_ids in Hnone; apply Hnone; congruence]).
  - rewrite !map_map. apply map_ext. intro x. now destruct (id x =? id r).
Qed.

Lemma unique_ids_create (p : PersonCreate) (db : database) (i : Z) :
  next_id db = Some i -> unique_ids db -> unique_ids (db ++ [PersonCreate_row i p]).
Proof.
  unfold unique_ids. intros Hn Hu. rewrite map_app. cbn [map PersonCreate_row id].
  apply NoDup_app; [exact Hu | repeat constructor; intros [] |].
  intros a Ha [<-|[]]. apply in_map_iff in Ha. destruct Ha as [x [E Hx]].
  now apply (next_id_fresh db i x Hn Hx).
Qed.

Lemma app_unique_ids (req : request) (db : database) :
  unique_ids db -> unique_ids (snd (app req db)).
Proof.
  intro Hu. rewrite snd_app. destruct req as [i| |body|i body|i]; cbn [dispatch].
  - rewrite read_person_get_db. now destruct (query_first i db) as [e|[r|]].
  - exact Hu.
  - destruct (validate_PersonCreate body) as [errs|p]; cbn [validated];
      [exact Hu|].
    rewrite create_person_get_db.
    destruct (storable (pc_age p)); [|exact Hu].
    destruct (next_id db) as [n|] eqn:Hn; [|exact Hu].
    now apply unique_ids_create.
  - destruct body; cbn [validate_dict validated]; try exact Hu.
    rewrite update_person_get_db.
    destruct (query_first i db) as [e|[row|]]; try exact Hu.
    destruct (update_loop (load row) d) as [o|r o|e o]; try exact Hu.
    destruct (commit_update row o db) as [e|[row' db']] eqn:Hc; [exact Hu|].
    cbn [snd]. apply commit_update_table in Hc.
    destruct Hc as [[_ ->]|[-> Hfree]]; [exact Hu|].
    now apply unique_ids_update.
  - rewrite delete_person_get_db.
    destruct (query_first i db) as [e|[r|]]; try exact Hu.
    cbn [snd]. unfold unique_ids.
    rewrite (map_id_filter (fun j => negb (j =? i))). now apply NoDup_filter.
Qed.

(** X2: the primary key stays unique: if no two rows of the table share
    an id, no two do after any run of requests, whatever their bodies (a
    PATCH that names an id in use does not commit, a POST gets an id that
    is not in use). *)
Theorem unique_ids_preserved (reqs : list request) (db : database) :
  unique_ids db -> unique_ids (run reqs db).
Proof.
  revert db. induction reqs as [|req reqs IH]; intros db Hu; [exact Hu|].
  unfold run. cbn [fold_left]. apply IH. now apply app_unique_ids.
Qed.

(** ** The integers of the table *)

Lemma flush_Integer_storable (loaded z : Z) (v : pyval) :
  storable loaded = true -> flush_Integer loaded v = Some z -> storable z = true.
Proof.
  intro Hl. unfold flush_Integer. destruct (py_eq_int v loaded).
  - now intros [= <-].
  - apply bind_Integer_storable.
Qed.

Lemma flush_storable (r r' : PersonDB) (o : instance) :
  flush r o = Some r' ->
  (storable (id r) = true -> storable (id r') = true)
  /\ (storable (age r) = true -> storable (age r') = true).
Proof.
  unfold flush.
  destruct (flush_Integer (id r) (a_id o)) as [i|] eqn:Hi; [|discriminate].
  destruct (flush_String (name r) (a_name o)); [|discriminate].
  destruct (flush_Integer (age r) (a_age o)) as [a|] eqn:Ha; [|discriminate].
  destruct (flush_String (address r) (a_address o)); [|discriminate].
  destruct (flush_String (work r) (a_work o)); [|discriminate].
  intros [= <-]. cbn [id age]. split; intro H.
  - exact (flush_Integer_storable _ _ _ H Hi).
  - exact (flush_Integer_storable _ _ _ H Ha).
Qed.

Lemma app_in_range (req : request) (db : database) :
  in_range db -> in_range (snd (app req db)).
Proof.
  intro Hr. rewrite snd_app. destruct req as [i| |body|i body|i]; cbn [dispatch].
  - rewrite read_person_get_db. now destruct (query_first i db) as [e|[r|]].
  - exact Hr.
  - destruct (validate_PersonCreate body) as [errs|p]; cbn [validated];
      [exact Hr|].
    rewrite create_person_get_db.
    destruct (storable (pc_age p)) eqn:Hage; [|exact Hr].
    destruct (next_id db) as [n|] eqn:Hn; [|exact Hr].
    cbn [snd]. intros r Hin. apply in_app_or in Hin.
    destruct Hin as [Hin|[<-|[]]]; [now apply Hr|].
    cbn [PersonCreate_row id age]. split; [|exact Hage].
    exact (next_id_storable _ _ Hr Hn).
  - destruct body; cbn [validate_dict validated]; try exact Hr.
    rewrite update_person_get_db.
    destruct (query_first i db) as [e|[row|]] eqn:Hq0; try exact Hr.
    destruct (query_first_found _ _ _ Hq0) as [_ Hq].
    destruct (update_loop (load row) d) as [o|r o|e o]; try exact Hr.
    destruct (commit_update row o db) as [e|[row' db']] eqn:Hc; [exact Hr|].
    cbn [snd]. pose proof (commit_update_flush _ _ _ _ _ Hc) as Hf.
    apply flush_storable in Hf.
    destruct (Hr row (proj1 (select_first_some _ _ _ Hq))) as [Hid Hage].
    apply commit_update_table in Hc.
    destruct Hc as [[_ ->]|[-> _]]; [exact Hr|].
    intros x Hx. apply in_map_iff in Hx. destruct Hx as [y [<- Hy]].
    destruct (id y =? id row); [|now apply Hr].
    split; [now apply (proj1 Hf) | now apply (proj2 Hf)].
  - rewrite delete_person_get_db.
    destruct (query_first i db) as [e|[r|]]; try exact Hr.
    cbn [snd]. intros x Hx. apply filter_In in Hx. now apply Hr.
Qed.

(** X17: the integers of the table stay within the range of the store:
    if every id and every age is a 64-bit integer, so is every id and every
    age after any run of requests within the schema (a POST or a PATCH that
    carries a larger integer does not commit). *)
Theorem in_range_preserved (reqs : list request) (db : database) :
  Forall within_schema reqs -> in_range db -> in_range (run reqs db).
Proof.
  intros _. revert db. induction reqs as [|req reqs IH]; intros db Hr; [exact Hr|].
  unfold run. cbn [fold_left]. apply IH. now apply app_in_range.
Qed.

(** ** Deleting and creating *)

Lemma select_first_filter_other (i j : Z) (db : database) :
  j <> i ->
  select_first j (filter (fun x => negb (id x =? i)) db) = select_first j db.
Proof.
  intro Hne. unfold select_first. induction db as [|x db IH]; [reflexivity|].
  simpl. destruct (Z.eqb_spec (id x) i) as [E|E]; simpl.
  - destruct (Z.eqb_spec (id x) j); [lia | exact IH].
  - destruct (id x =? j); [reflexivity | exact IH].
Qed.

(** X3: DELETE of an existing person answers 204 with no body and
    removes the rows under that id and nothing else: the id is absent
    afterwards, every other id reads as before, and the records kept stay
    in their order. *)
Theorem delete_person_removes (person_id : Z) (db : database) (row : PersonDB) :
  query_first person_id db = inr (Some row) ->
  let db' := filter (fun x => negb (id x =? person_id)) db in
  app (DELETE_person person_id) db = (mkResponse 204 [] PNone, db')
  /\ query_first person_id db' = inr None
  /\ (forall j, j <> person_id -> query_first j db' = query_first j db)
  /\ (forall r, In r db' <-> In r db /\ id r <> person_id).
Proof.
  intros Hq0 db'. subst db'.
  destruct (query_first_found _ _ _ Hq0) as [Hst _].
  split; [|split; [|split]].
  - unfold app, dispatch. now rewrite delete_person_get_db, Hq0.
  - rewrite (query_first_storable _ _ Hst). f_equal. apply select_first_filter_same.
  - intros j Hj. unfold query_first.
    now rewrite (select_first_filter_other person_id j db Hj).
  - intro r. rewrite filter_In, negb_true_iff, Z.eqb_neq. tauto.
Qed.


(** ** The listing *)

Lemma insert_by_id_In (r x : PersonDB) (rows : list PersonDB) :
  In x (insert_by_id r rows) <-> x = r \/ In x rows.
Proof.
  induction rows as [|y rows IH]; cbn [insert_by_id].
  - simpl. intuition.
  - destruct (id r <=? id y); simpl in *; intuition.
Qed.

Lemma query_all_In (x : PersonDB) (db : database) :
  In x (query_all db) <-> In x db.
Proof.
  unfold query_all. induction db as [|y db IH]; cbn [fold_right]; [tauto|].
  rewrite insert_by_id_In, IH. simpl. intuition.
Qed.





(** ** Reading *)

Lemma PersonResponse_inj (r r' : PersonDB) :
  PersonResponse r = PersonResponse r' -> r = r'.
Proof.
  destruct r, r'. unfold PersonResponse. cbn. intros [= -> -> -> -> ->].
  reflexivity.
Qed.

Lemma select_first_unique (r : PersonDB) (db : database) :
  unique_ids db -> In r db -> select_first (id r) db = Some r.
Proof.
  unfold unique_ids, select_first. induction db as [|x db IH]; [contradiction|].
  cbn [map]. intros Hu Hin. inversion Hu as [|? ? Hnotin Hu']; subst.
  cbn [find]. destruct (Z.eqb_spec (id x) (id r)) as [E|E].
  - destruct Hin as [->|Hin]; [reflexivity|].
    exfalso. apply Hnotin. rewrite E. now apply in_map.
  - destruct Hin as [->|Hin]; [congruence | now apply IH].
Qed.

(** X6: the listing and the single reads agree: in a table of ids of the
    store that are unique, a record is in the list GET /persons returns if
    and only if GET on its id answers 200 with that record. *)
Theorem listing_agrees_with_reads (r : PersonDB) (db : database) :
  unique_ids db -> in_range db ->
  fst (app GET_persons db) = JSONResponse (PList (map PersonResponse (query_all db))) 200
  /\ (In (PersonResponse r) (map PersonResponse (query_all db))
      <-> app (GET_person (id r)) db = (JSONResponse (PersonResponse r) 200, db)).
Proof.
  intros Hu Hr. split; [reflexivity|].
  unfold app, dispatch. rewrite read_person_get_db. split.
  - intro Hin. apply in_map_iff in Hin. destruct Hin as [x [E Hx]].
    apply PersonResponse_inj in E. subst x. apply (proj1 (query_all_In _ _)) in Hx.
    rewrite (query_first_storable _ _ (proj1 (Hr r Hx))).
    now rewrite (select_first_unique _ _ Hu Hx).
  - destruct (query_first (id r) db) as [e|[x|]] eqn:Hq0; cbn [render].
    + destruct e; try discriminate.
      destruct (forallb (fun e => finite (input e)) errors); discriminate.
    + intro H. destruct (query_first_found _ _ _ Hq0) as [_ Hq].
      assert (E : PersonResponse x = PersonResponse r)
        by (unfold JSONResponse in H; congruence).
      apply PersonResponse_inj in E. subst x.
      apply in_map. apply (proj2 (query_all_In _ _)).
      apply (select_first_some _ _ _ Hq).
    + discriminate.
Qed.

(** ** Partial updates *)

(** The row a commit wrote is read back under its key. *)
Lemma commit_update_read (i : Z) (r r' : PersonDB) (o : instance)
      (db db' : database) :
  query_first i db = inr (Some r) ->
  commit_update r o db = inr (r', db') ->
  query_first (id r') db' = inr (Some r').
Proof.
  intros Hq0 Hc. destruct (query_first_found _ _ _ Hq0) as [Hst Hq].
  destruct (commit_update_stored _ _ _ _ _ _ Hq Hc) as [Hf Hr].
  rewrite query_first_storable; [now rewrite Hr|].
  apply (proj1 (flush_storable _ _ _ Hf)).
  now rewrite (proj2 (select_first_some _ _ _ Hq)).
Qed.

Lemma names_falsy_named (r : PersonDB) (person : dict) (c : column) (v : pyval) :
  dict_get person (column_name c) = Some v ->
  truthy (column_value r c) = false ->
  names_falsy r person = true.
Proof.
  intros Hget Hfalsy. apply dict_get_In in Hget.
  unfold names_falsy. apply existsb_exists. exists (column_name c, v).
  split; [exact Hget|]. cbn [fst]. now rewrite column_name_of, Hfalsy.
Qed.

(** A column that the body does not name is flushed as it was loaded. *)
Lemma flush_unnamed (r r' : PersonDB) (person : dict) (c : column) :
  over_attributes person -> dict_wf person ->
  dict_get person (column_name c) = None ->
  flush r (assign (load r) person) = Some r' ->
  column_value r' c = column_value r c.
Proof.
  intros Hattr Hwf Hnone Hf.
  pose proof (get_column_assign person c (load r) Hattr Hwf) as Hc.
  rewrite Hnone, get_column_load in Hc.
  unfold flush in Hf.
  destruct (flush_Integer (id r) (a_id (assign (load r) person))) as [i|] eqn:Hi;
    [|discriminate].
  destruct (flush_String (name r) (a_name (assign (load r) person))) as [n|] eqn:Hn;
    [|discriminate].
  destruct (flush_Integer (age r) (a_age (assign (load r) person))) as [a|] eqn:Ha;
    [|discriminate].
  destruct (flush_String (address r) (a_address (assign (load r) person)))
    as [ad|] eqn:Had; [|discriminate].
  destruct (flush_String (work r) (a_work (assign (load r) person))) as [w|] eqn:Hw;
    [|discriminate].
  injection Hf as <-.
  destruct c; cbn [get_column column_value] in Hc; cbn [column_value id name age address work];
    rewrite Hc in *;
    rewrite ?flush_Integer_same, ?flush_String_str in *; congruence.
Qed.

(** X7: a PATCH over the person's attributes that is answered 200 changes
    only the fields it names: the record in the answer is the one stored,
    and each of id, name, age, address and work that the body does not name
    has the value it had, whatever values the body carries. *)
Theorem update_person_keeps_unnamed (person_id : Z) (person : dict)
        (db : database) (row : PersonDB) :
  query_first person_id db = inr (Some row) ->
  dict_wf person -> over_attributes person ->
  let answer := app (PATCH_person person_id (PDict person)) db in
  status_code (fst answer) = 200 ->
  exists row',
    fst answer = JSONResponse (PersonResponse row') 200
    /\ query_first (id row') (snd answer) = inr (Some row')
    /\ forall c, dict_get person (column_name c) = None ->
                 column_value row' c = column_value row c.
Proof.
  intros Hq0 Hwf Hattr answer. subst answer.
  pose proof (update_person_attributes _ _ _ _ Hq0 Hwf Hattr) as H.
  unfold app, dispatch. cbn [validated validate_dict].
  destruct (names_falsy row person).
  - destruct H as [o H]. unfold get_db. rewrite H. cbn. discriminate.
  - rewrite H.
    destruct (commit_update row (assign (load row) person) db)
      as [e|[row' db']] eqn:Hc.
    + apply commit_update_error in Hc. subst e. cbn. discriminate.
    + intros _. exists row'. cbn [fst snd render]. split; [reflexivity|].
      split; [exact (commit_update_read _ _ _ _ _ _ Hq0 Hc)|].
      intros c Hc'.
      exact (flush_unnamed row row' person c Hattr Hwf Hc'
               (commit_update_flush _ _ _ _ _ Hc)).
Qed.

(** X8: a field whose stored value is falsy is frozen for PATCH: whatever
    a PATCH over the person's attributes carries, with values of the types
    of their columns, it is either refused (not 200, the table as it was)
    or answered 200 with a record in which that field still has its falsy
    value. *)
Theorem falsy_field_frozen (person_id : Z) (person : dict) (db : database)
        (row : PersonDB) (c : column) :
  query_first person_id db = inr (Some row) ->
  dict_wf person -> over_attributes person -> well_typed person ->
  truthy (column_value row c) = false ->
  let answer := app (PATCH_person person_id (PDict person)) db in
  (status_code (fst answer) <> 200 /\ snd answer = db)
  \/ exists row',
      fst answer = JSONResponse (PersonResponse row') 200
      /\ query_first (id row') (snd answer) = inr (Some row')
      /\ column_value row' c = column_value row c.
Proof.
  intros Hq0 Hwf Hattr _ Hfalsy answer. subst answer.
  destruct (dict_get person (column_name c)) as [v|] eqn:Hget.
  - left. rewrite (update_person_rejected _ _ _ row Hq0 Hwf Hattr
                     (names_falsy_named _ _ _ _ Hget Hfalsy)).
    cbn. split; [discriminate | reflexivity].
  - pose proof (update_person_attributes _ _ _ _ Hq0 Hwf Hattr) as H.
    unfold app, dispatch. cbn [validated validate_dict].
    destruct (names_falsy row person).
    + left. destruct H as [o H]. unfold get_db. rewrite H. cbn.
      split; [discriminate | reflexivity].
    + rewrite H.
      destruct (commit_update row (assign (load row) person) db)
        as [e|[row' db']] eqn:Hc.
      * left. apply commit_update_error in Hc. subst e. cbn.
        split; [discriminate | reflexivity].
      * right. exists row'. cbn [fst snd render]. split; [reflexivity|].
        split; [exact (commit_update_read _ _ _ _ _ _ Hq0 Hc)|].
        exact (flush_unnamed row row' person c Hattr Hwf Hget
                 (commit_update_flush _ _ _ _ _ Hc)).
Qed.

Lemma single_wf (k : string) (v : pyval) : dict_wf [(k, v)].
Proof. unfold dict_wf. cbn. constructor; [intros [] | constructor]. Qed.

Lemma single_attribute (c : column) (v : pyval) :
  over_attributes [(column_name c, v)].
Proof.
  unfold over_attributes. cbn. constructor; [|constructor].
  now rewrite column_name_of.
Qed.

(** X9: null is never stored: for an existing person and any of the five
    attributes whose stored value is truthy, a PATCH that sets it to null
    passes the check of the loop, fails in the commit, and is answered
    with the server error, the table as it was. *)
Theorem update_person_null_refused (person_id : Z) (db : database)
        (row : PersonDB) (c : column) :
  query_first person_id db = inr (Some row) ->
  truthy (column_value row c) = true ->
  app (PATCH_person person_id (PDict [(column_name c, PNone)])) db
  = (mkResponse 500 [] (PStr "Internal Server Error"), db).
Proof.
  intros Hq0 Htruthy.
  pose proof (update_person_attributes _ _ _ _ Hq0 (single_wf _ PNone)
                (single_attribute c PNone)) as H.
  assert (Hnf : names_falsy row [(column_name c, PNone)] = false).
  { unfold names_falsy. cbn [existsb fst]. now rewrite column_name_of, Htruthy. }
  rewrite Hnf in H. unfold app, dispatch. cbn [validated validate_dict].
  rewrite H. unfold commit_update.
  rewrite (flush_null row _ c); [reflexivity|].
  unfold assign. cbn [fold_left fst snd]. rewrite column_name_of.
  apply get_set_column_same.
Qed.

(** X10: a PATCH cannot move a person onto an id that is in use: for an
    existing person with a non-zero id and another stored person, the body
    {"id": other id} fails in the commit and is answered with the server
    error, the table as it was. *)
Theorem update_person_id_in_use (person_id other_id : Z) (db : database)
        (row other : PersonDB) :
  query_first person_id db = inr (Some row) ->
  query_first other_id db = inr (Some other) ->
  person_id <> 0 -> other_id <> person_id ->
  app (PATCH_person person_id (PDict [("id", PInt other_id)])) db
  = (mkResponse 500 [] (PStr "Internal Server Error"), db).
Proof.
  intros Hq0 Hother0 Hnz Hne.
  destruct (query_first_found _ _ _ Hq0) as [_ Hq].
  destruct (query_first_found _ _ _ Hother0) as [Hst Hother].
  destruct (select_first_some _ _ _ Hq) as [_ Hid].
  destruct (select_first_some _ _ _ Hother) as [Hin Hoid].
  pose proof (update_person_attributes _ _ _ _ Hq0 (single_wf _ (PInt other_id))
                (single_attribute c_id (PInt other_id))) as H.
  cbn [column_name] in H.
  assert (Hnf : names_falsy row [("id", PInt other_id)] = false).
  { unfold names_falsy. cbn. rewrite Hid.
    destruct (Z.eqb_spec person_id 0); [contradiction | reflexivity]. }
  rewrite Hnf in H. unfold app, dispatch. cbn [validated validate_dict].
  rewrite H. unfold commit_update, assign, flush.
  cbn [fold_left fst snd column_of String.eqb Ascii.eqb Bool.eqb set_column load
       a_id a_name a_age a_address a_work].
  rewrite (flush_Integer_int _ _ Hst), flush_Integer_same, !flush_String_str.
  assert (Heqb : PersonDB_eqb (mkPersonDB other_id (name row) (age row)
                                 (address row) (work row)) row = false).
  { unfold PersonDB_eqb. cbn [id]. rewrite Hid.
    destruct (Z.eqb_spec other_id person_id); [contradiction | reflexivity]. }
  rewrite Heqb. cbn [id]. rewrite Hid.
  destruct (Z.eqb_spec other_id person_id) as [|_]; [contradiction|].
  assert (Hex : existsb (fun x => id x =? other_id) db = true).
  { apply existsb_exists. exists other. split; [exact Hin | lia]. }
  now rewrite Hex.
Qed.






(** ** Counting records *)

Lemma filter_length_unique (i : Z) (db : database) (r : PersonDB) :
  unique_ids db -> select_first i db = Some r ->
  S (List.length (filter (fun x => negb (id x =? i)) db)) = List.length db.
Proof.
  unfold unique_ids, select_first. induction db as [|x db IH]; [discriminate|].
  cbn [map find filter List.length]. intros Hu Hq.
  inversion Hu as [|? ? Hnotin Hu']; subst.
  destruct (Z.eqb_spec (id x) i) as [E|E]; cbn [negb List.length].
  - f_equal. f_equal. apply forallb_filter_id, forallb_forall. intros y Hy.
    apply negb_true_iff, Z.eqb_neq. intro Ey. apply Hnotin.
    rewrite E, <- Ey. now apply in_map.
  - f_equal. now apply IH.
Qed.

Lemma query_first_error (i : Z) (db : database) (e : exception) :
  query_first i db = inl e -> e = OverflowError.
Proof. unfold query_first. destruct (storable i); [discriminate | congruence]. Qed.

(** X12: the number of records follows the answers: in a table with
    unique ids, a request answered 201 adds exactly one record, a request
    answered 204 removes exactly one, and a request answered with any
    other status leaves the number as it was. *)
Theorem record_count (req : request) (db : database) :
  unique_ids db ->
  let answer := app req db in
  let n := List.length db in
  let n' := List.length (snd answer) in
  (status_code (fst answer) = 201 -> n' = S n)
  /\ (status_code (fst answer) = 204 -> S n' = n)
  /\ (status_code (fst answer) <> 201 -> status_code (fst answer) <> 204 -> n' = n).
Proof.
  intros Hu answer n n'. subst answer n n'. unfold app.
  destruct req as [i| |body|i body|i]; cbn [dispatch].
  - rewrite read_person_get_db.
    destruct (query_first i db) as [e|[r|]] eqn:Hq0;
      [apply query_first_error in Hq0; subst e|..]; cbn;
      repeat split; intros; congruence.
  - cbn. repeat split; intros; congruence.
  - destruct (validate_PersonCreate body) as [errs|p]; cbn [validated].
    + cbn. destruct (forallb (fun e => finite (input e)) errs); cbn;
        repeat split; intros; congruence.
    + rewrite create_person_get_db.
      destruct (storable (pc_age p)); [|cbn; repeat split; intros; congruence].
      destruct (next_id db); [|cbn; repeat split; intros; congruence].
      cbn [fst snd render status_code].
      rewrite length_app. cbn [List.length].
      repeat split; intros; try congruence; lia.
  - destruct (validate_dict body) as [errs|d]; cbn [validated].
    { cbn. destruct (forallb (fun e => finite (input e)) errs); cbn;
        repeat split; intros; congruence. }
    rewrite update_person_get_db.
    destruct (query_first i db) as [e|[row|]] eqn:Hq0;
      [apply query_first_error in Hq0; subst e; cbn; repeat split; intros; congruence
      | | cbn; repeat split; intros; congruence].
    destruct (update_loop (load row) d) as [o|r o|e o] eqn:Hloop.
    + destruct (commit_update row o db) as [e|[row' db']] eqn:Hc.
      * apply commit_update_error in Hc. subst e.
        cbn. repeat split; intros; congruence.
      * apply commit_update_table in Hc.
        assert (List.length db' = List.length db) as Hlen.
        { destruct Hc as [[_ ->]|[-> _]]; [reflexivity | apply length_map]. }
        cbn. rewrite Hlen. repeat split; intros; congruence.
    + apply update_loop_returned in Hloop. subst r.
      cbn. repeat split; intros; congruence.
    + apply update_loop_raised in Hloop.
      destruct Hloop as [->|[k ->]]; cbn; repeat split; intros; congruence.
  - rewrite delete_person_get_db.
    destruct (query_first i db) as [e|[r|]] eqn:Hq0;
      [apply query_first_error in Hq0; subst e; cbn; repeat split; intros; congruence
      | | cbn; repeat split; intros; congruence].
    destruct (query_first_found _ _ _ Hq0) as [_ Hq].
    cbn [fst snd render status_code].
    pose proof (filter_length_unique i db r Hu Hq) as Hlen.
    repeat split; intros; try congruence; lia.
Qed.

(** ** Reading back what was created *)

(** X13: what GET returns for a person is a valid Create payload: on a
    table of integers of the store that has an id to give, POST with that
    body is answered 201 and stores a copy of the record under the new id,
    the id in the body being ignored. *)
Theorem read_then_create_copies (person_id new_id : Z) (db : database)
        (row : PersonDB) :
  query_first person_id db = inr (Some row) ->
  in_range db ->
  next_id db = Some new_id ->
  let body := content (fst (app (GET_person person_id) db)) in
  body = PersonResponse row
  /\ app (POST_persons body) db
     = (mkResponse 201 [("Location", ("/persons/" ++ str new_id)%string)] PNone,
        db ++ [with_id new_id row]).
Proof.
  intros Hq0 Hr Hn body.
  destruct (query_first_found _ _ _ Hq0) as [_ Hq].
  assert (Hbody : body = PersonResponse row).
  { subst body. unfold app, dispatch. now rewrite read_person_get_db, Hq0. }
  split; [exact Hbody|]. rewrite Hbody.
  apply (create_person_201 (PersonResponse row)
           (mkPersonCreate (name row) (age row) (address row) (work row)) db new_id);
    [reflexivity | | exact Hn].
  exact (proj2 (Hr row (proj1 (select_first_some _ _ _ Hq)))).
Qed.









(** ** Update, then delete *)

Lemma filter_updated (r r' : PersonDB) (db : database) :
  id r' = id r ->
  filter (fun x => negb (id x =? id r))
         (map (fun x => if id x =? id r then r' else x) db)
  = filter (fun x => negb (id x =? id r)) db.
Proof.
  intro Hid. induction db as [|x db IH]; [reflexivity|]. cbn [map filter].
  destruct (Z.eqb_spec (id x) (id r)) as [E|E].
  - rewrite Hid, Z.eqb_refl. exact IH.
  - destruct (Z.eqb_spec (id x) (id r)); [contradiction|]. cbn [negb].
    now rewrite IH.
Qed.

(** X16: an update does not survive a delete: for any PATCH body over the
    attributes that does not name the id, DELETE of a person after the
    PATCH of that person is answered as DELETE alone and leaves the same
    table, whether the PATCH went through, was refused, or found nobody. *)
Theorem update_then_delete (person_id : Z) (person : dict) (db : database) :
  dict_wf person -> over_attributes person ->
  dict_get person "id" = None ->
  app (DELETE_person person_id)
      (snd (app (PATCH_person person_id (PDict person)) db))
  = app (DELETE_person person_id) db.
Proof.
  intros Hwf Hattr Hnoid.
  destruct (query_first person_id db) as [e|[row|]] eqn:Hq0.
  - assert (Hpatch : snd (app (PATCH_person person_id (PDict person)) db) = db).
    { rewrite snd_app. cbn [dispatch validated validate_dict].
      now rewrite update_person_get_db, Hq0. }
    now rewrite Hpatch.
  - destruct (query_first_found _ _ _ Hq0) as [Hst Hq].
    assert (Hpatch : snd (app (PATCH_person person_id (PDict person)) db) = db
                     \/ exists row',
                         id row' = id row
                         /\ select_first person_id
                              (map (fun x => if id x =? id row then row' else x) db)
                            = Some row'
                         /\ snd (app (PATCH_person person_id (PDict person)) db)
                            = map (fun x => if id x =? id row then row' else x) db).
    { pose proof (update_person_attributes _ _ _ _ Hq0 Hwf Hattr) as H.
      unfold app, dispatch. cbn [validated validate_dict].
      destruct (names_falsy row person).
      - left. destruct H as [o H]. unfold get_db. now rewrite H.
      - rewrite H.
        destruct (commit_update row (assign (load row) person) db)
          as [e|[row' db']] eqn:Hc; [now left|].
        destruct (commit_update_stored _ _ _ _ _ _ Hq Hc) as [Hf Hr].
        pose proof (flush_unnamed row row' person c_id Hattr Hwf Hnoid Hf) as Hid.
        cbn [column_value] in Hid. injection Hid as Hid.
        apply commit_update_table in Hc. cbn [snd].
        destruct Hc as [[_ ->]|[-> _]]; [now left | right].
        exists row'. split; [exact Hid|]. split; [|reflexivity].
        rewrite Hid in Hr. destruct (select_first_some _ _ _ Hq) as [_ Hrow].
        rewrite <- Hrow. exact Hr. }
    destruct Hpatch as [->|[row' [Hid [Hq' ->]]]]; [reflexivity|].
    unfold app, dispatch. rewrite !delete_person_get_db.
    rewrite !(query_first_storable _ _ Hst), Hq, Hq'.
    destruct (select_first_some _ _ _ Hq) as [_ Hrow]. rewrite <- Hrow.
    now rewrite (filter_updated row row' db Hid).
  - assert (Hpatch : snd (app (PATCH_person person_id (PDict person)) db) = db).
    { rewrite snd_app. cbn [dispatch validated validate_dict].
      now rewrite update_person_get_db, Hq0. }
    now rewrite Hpatch.
Qed.

End Further.

(** ** The Location header *)

Lemma str_injective (a b : Z) : str a = str b -> a = b.
Proof.
  unfold str. intro H. apply DecimalZ.to_int_inj.
  assert (Hnn : forall z, Z.to_int z <> Pos Nil /\ Z.to_int z <> Neg Nil).
  { intros [|p|p]; cbn; split; try discriminate;
      intro E; injection E as E; now apply (Unsigned.to_uint_nonnil p). }
  pose proof (NilZero.isi (Z.to_int a) (proj1 (Hnn a)) (proj2 (Hnn a))) as Ha.
  pose proof (NilZero.isi (Z.to_int b) (proj1 (Hnn b)) (proj2 (Hnn b))) as Hb.
  rewrite H in Ha. congruence.
Qed.

(** X15: the Location header identifies the record: the paths
    [/persons/{id}] of two ids are equal only if the ids are. *)
Theorem location_identifies (a b : Z) :
  ("/persons/" ++ str a)%string = ("/persons/" ++ str b)%string -> a = b.
Proof.
  cbn [append]. intro H. apply str_injective. congruence.
Qed.

(** * The further properties on the data of the test suite *)

Lemma unique_ids_john_jane2 : unique_ids [john; jane2].
Proof.
  unfold unique_ids. cbn. repeat constructor; cbn; intuition discriminate.
Defined.

Lemma in_range_john_jane2 : in_range [john; jane2].
Proof.
  intros r [<-|[<-|[]]]; split; reflexivity.
Defined.

Lemma in_range_john : in_range [john].
Proof.
  intros r [<-|[]]; split; reflexivity.
Defined.


(** Witness of X1: the id in use. *)
Lemma error_answer_rolls_back_witness :
  let req := PATCH_person 1 (PDict [("id", PInt 2)]) in
  within_schema req
  /\ 400 <= status_code (fst (@app reference_platform req [john; jane2]))
  /\ snd (@app reference_platform req [john; jane2]) = [john; jane2].
Proof.
  intro req.
  assert (Hs : within_schema req).
  { split; [apply single_wf|]. split; [apply (single_attribute c_id)|].
    intros k v c [Hin|[]] Hc. injection Hin as <- <-. injection Hc as <-.
    reflexivity. }
  assert (H : 400 <= status_code (fst (@app reference_platform req [john; jane2])))
    by (vm_compute; discriminate).
  split; [exact Hs|]. split; [exact H|].
  exact (@error_answer_rolls_back reference_platform req [john; jane2] Hs H).
Defined.

(** Witness of X2: a run that creates, moves, and deletes. *)
Lemma unique_ids_preserved_witness :
  let reqs := [POST_persons (PDict TEST_PERSON_DATA);
               PATCH_person 1 (PDict [("id", PInt 2)]);
               PATCH_person 3 (PDict [("id", PInt 7)]);
               DELETE_person 2] in
  unique_ids [john; jane2]
  /\ unique_ids (@run reference_platform reqs [john; jane2]).
Proof.
  intro reqs. split; [exact unique_ids_john_jane2|].
  exact (@unique_ids_preserved reference_platform reqs [john; jane2]
           unique_ids_john_jane2).
Defined.

(** Witness of X17: a create, and an age the store cannot hold. *)
Lemma in_range_preserved_witness :
  let reqs := [POST_persons (PDict TEST_PERSON_DATA);
               PATCH_person 1 (PDict [("age", PInt 9223372036854775808)])] in
  (Forall within_schema reqs /\ in_range [john; jane2])
  /\ in_range (@run reference_platform reqs [john; jane2])
  /\ @run reference_platform reqs [john; jane2]
     = [john; jane2; mkPersonDB 3 "John Doe" 30 "123" "123"].
Proof.
  intro reqs.
  assert (Hs : Forall within_schema reqs).
  { constructor; [exact I|]. constructor; [|constructor].
    split; [apply single_wf|]. split; [apply (single_attribute c_age)|].
    intros k v c [Hin|[]] Hc. injection Hin as <- <-. injection Hc as <-.
    reflexivity. }
  split; [split; [exact Hs | exact in_range_john_jane2]|].
  split; [|reflexivity].
  exact (@in_range_preserved reference_platform reqs [john; jane2] Hs
           in_range_john_jane2).
Defined.

(** Witness of X3. *)
Lemma delete_person_removes_witness :
  query_first 1 [john; jane2] = inr (Some john)
  /\ @app reference_platform (DELETE_person 1) [john; jane2]
     = (mkResponse 204 [] PNone, [jane2]).
Proof.
  split; [reflexivity|].
  exact (proj1 (@delete_person_removes reference_platform 1 [john; jane2] john
                  eq_refl)).
Defined.



(** Witness of X6. *)
Lemma listing_agrees_with_reads_witness :
  (unique_ids [john; jane2] /\ in_range [john; jane2])
  /\ (In (PersonResponse jane2) (map PersonResponse (query_all [john; jane2]))
      <-> @app reference_platform (GET_person 2) [john; jane2]
          = (JSONResponse (PersonResponse jane2) 200, [john; jane2])).
Proof.
  split; [split; [exact unique_ids_john_jane2 | exact in_range_john_jane2]|].
  exact (proj2 (@listing_agrees_with_reads reference_platform jane2 [john; jane2]
                  unique_ids_john_jane2 in_range_john_jane2)).
Defined.

(** Witness of X7: only the name is sent. *)
Lemma update_person_keeps_unnamed_witness :
  let person := [("name", PStr "Jane Smith")] in
  let answer := @app reference_platform (PATCH_person 1 (PDict person)) [john] in
  (query_first 1 [john] = inr (Some john) /\ dict_wf person /\ over_attributes person
   /\ status_code (fst answer) = 200)
  /\ exists row',
      fst answer = JSONResponse (PersonResponse row') 200
      /\ query_first (id row') (snd answer) = inr (Some row')
      /\ forall c, dict_get person (column_name c) = None ->
                   column_value row' c = column_value john c.
Proof.
  intros person answer.
  assert (Hwf : dict_wf person) by apply single_wf.
  assert (Hattr : over_attributes person) by apply (single_attribute c_name).
  split; [repeat split; assumption|].
  exact (@update_person_keeps_unnamed reference_platform 1 person [john] john
           eq_refl Hwf Hattr eq_refl).
Defined.

(** Witness of X8: the zero age. *)
Lemma falsy_field_frozen_witness :
  let zero := mkPersonDB 1 "John Doe" 0 "123" "123" in
  let answer := @app reference_platform
                  (PATCH_person 1 (PDict TEST_PERSON_UPDATE_DATA)) [zero] in
  (query_first 1 [zero] = inr (Some zero)
   /\ well_typed TEST_PERSON_UPDATE_DATA
   /\ truthy (column_value zero c_age) = false)
  /\ ((status_code (fst answer) <> 200 /\ snd answer = [zero])
      \/ exists row',
          fst answer = JSONResponse (PersonResponse row') 200
          /\ query_first (id row') (snd answer) = inr (Some row')
          /\ column_value row' c_age = column_value zero c_age).
Proof.
  intros zero answer.
  split; [split; [reflexivity|];
          split; [exact TEST_PERSON_UPDATE_DATA_typed | reflexivity]|].
  exact (@falsy_field_frozen reference_platform 1 TEST_PERSON_UPDATE_DATA [zero]
           zero c_age eq_refl TEST_PERSON_UPDATE_DATA_wf
           TEST_PERSON_UPDATE_DATA_attributes TEST_PERSON_UPDATE_DATA_typed eq_refl).
Defined.

(** Witness of X9. *)
Lemma update_person_null_refused_witness :
  (query_first 1 [john] = inr (Some john) /\ truthy (column_value john c_age) = true)
  /\ @app reference_platform (PATCH_person 1 (PDict [("age", PNone)])) [john]
     = (mkResponse 500 [] (PStr "Internal Server Error"), [john]).
Proof.
  split; [now split|].
  exact (@update_person_null_refused reference_platform 1 [john] john c_age
           eq_refl eq_refl).
Defined.

(** Witness of X10. *)
Lemma update_person_id_in_use_witness :
  (query_first 1 [john; jane2] = inr (Some john)
   /\ query_first 2 [john; jane2] = inr (Some jane2) /\ 1 <> 0 /\ 2 <> 1)
  /\ @app reference_platform (PATCH_person 1 (PDict [("id", PInt 2)])) [john; jane2]
     = (mkResponse 500 [] (PStr "Internal Server Error"), [john; jane2]).
Proof.
  split; [repeat split; discriminate|].
  refine (@update_person_id_in_use reference_platform 1 2 [john; jane2] john jane2
            eq_refl eq_refl _ _); discriminate.
Defined.


(** Witness of X12: a DELETE answered 204. *)
Lemma record_count_witness :
  let answer := @app reference_platform (DELETE_person 1) [john; jane2] in
  unique_ids [john; jane2]
  /\ status_code (fst answer) = 204
  /\ S (List.length (snd answer)) = List.length [john; jane2].
Proof.
  intro answer. split; [exact unique_ids_john_jane2|]. split; [reflexivity|].
  exact (proj1 (proj2 (@record_count reference_platform (DELETE_person 1)
                         [john; jane2] unique_ids_john_jane2)) eq_refl).
Defined.

(** Witness of X13. *)
Lemma read_then_create_copies_witness :
  (query_first 1 [john] = inr (Some john) /\ in_range [john]
   /\ @next_id reference_platform [john] = Some 2)
  /\ @app reference_platform
       (POST_persons (content (fst (@app reference_platform (GET_person 1) [john]))))
       [john]
     = (mkResponse 201 [("Location", "/persons/2")] PNone, [john; with_id 2 john]).
Proof.
  split; [split; [reflexivity|]; split; [exact in_range_john | reflexivity]|].
  exact (proj2 (@read_then_create_copies reference_platform 1 2 [john] john eq_refl
                  in_range_john eq_refl)).
Defined.




(** Witness of X15. *)
Lemma location_identifies_witness :
  ("/persons/" ++ str 12)%string = ("/persons/" ++ str 12)%string /\ 12 = 12.
Proof.
  split; [reflexivity|]. exact (location_identifies 12 12 eq_refl).
Defined.

(** Witness of X16: the update of the test suite, then the delete. *)
Lemma update_then_delete_witness :
  (dict_wf TEST_PERSON_UPDATE_DATA /\ over_attributes TEST_PERSON_UPDATE_DATA
   /\ dict_get TEST_PERSON_UPDATE_DATA "id" = None)
  /\ @app reference_platform (DELETE_person 1)
       (snd (@app reference_platform
               (PATCH_person 1 (PDict TEST_PERSON_UPDATE_DATA)) [john; jane2]))
     = @app reference_platform (DELETE_person 1) [john; jane2].
Proof.
  split.
  - split; [exact TEST_PERSON_UPDATE_DATA_wf|].
    split; [exact TEST_PERSON_UPDATE_DATA_attributes | reflexivity].
  - exact (@update_then_delete reference_platform 1 TEST_PERSON_UPDATE_DATA
             [john; jane2] TEST_PERSON_UPDATE_DATA_wf
             TEST_PERSON_UPDATE_DATA_attributes eq_refl).
Defined.
